(** * PyVantagePro: the archive synchronisation commands of [pyvantagepro/__main__.py]

    A shallow embedding of [getarchives], [update_cmd] and [main] together
    with the collaborators they call ([ListDict], the CSV codec, the device
    and the progress bar), followed by the properties of the incremental
    merge: deduplication, ordering, resume point, header handling,
    append-only writes and error propagation. *)

From Stdlib Require Import List String Ascii Bool Arith Lia NArith DecimalString.
From Stdlib Require Import Sorting.Sorted Sorting.Permutation.
Import ListNotations.
Local Open Scope string_scope.
Local Open Scope list_scope.

(* ================================================================== *)
(** ** Text helpers *)

(** Characters with a role in the delimited text format. *)
Definition dquote : ascii := "034"%char.
Definition LF : ascii := "010"%char.

Fixpoint string_take (n : nat) (s : string) : string :=
  match n, s with
  | S n', String c s' => String c (string_take n' s')
  | _, _ => EmptyString
  end.

Fixpoint string_drop (n : nat) (s : string) : string :=
  match n, s with
  | S n', String _ s' => string_drop n' s'
  | _, _ => s
  end.

Fixpoint string_concat (l : list string) : string :=
  match l with
  | [] => EmptyString
  | s :: l' => s ++ string_concat l'
  end.

Fixpoint string_mem (c : ascii) (s : string) : bool :=
  match s with
  | EmptyString => false
  | String c' s' => Ascii.eqb c c' || string_mem c s'
  end.

(* ================================================================== *)
(** ** Exceptions and results *)

(** The exceptions a run can raise.  [KeyError], [ValueError] and
    [IndexError] are the Python exceptions of [record['Datetime']],
    [datetime.strptime] and [db[0]]; [OSError] is a failed [open]; the other
    three are the failures of the collaborators. *)
Inductive Error : Type :=
| KeyError (key : string)
| ValueError (msg : string)
| MalformedStoreError (msg : string)
| FieldNotFoundError (field : string)
| ConnectivityError (msg : string)
| OSError (msg : string)
| IndexError (msg : string).

Inductive Result (A : Type) : Type :=
| Ok (a : A)
| Err (e : Error).
Arguments Ok {A} a.
Arguments Err {A} e.

Definition result_bind {A B} (r : Result A) (k : A -> Result B) : Result B :=
  match r with
  | Ok a => k a
  | Err e => Err e
  end.

Fixpoint result_map {A B} (f : A -> Result B) (l : list A) : Result (list B) :=
  match l with
  | [] => Ok []
  | a :: l' =>
      result_bind (f a) (fun b =>
      result_bind (result_map f l') (fun bs => Ok (b :: bs)))
  end.

(** [str(e)], the text [main] hands to [parser.error]. *)
Definition error_str (e : Error) : string :=
  match e with
  | KeyError k => "'" ++ k ++ "'"
  | ValueError m => m
  | MalformedStoreError m => m
  | FieldNotFoundError f => f
  | ConnectivityError m => m
  | OSError m => m
  | IndexError m => m
  end.

(* ================================================================== *)
(** ** Records and record collections *)

(** A record is a flat mapping from field name to text, kept in field
    order (the order of the columns). *)
Definition Dict : Type := list (string * string).
Definition ListDict : Type := list Dict.

Definition keys (r : Dict) : list string := map fst r.
Definition values (r : Dict) : list string := map snd r.

Fixpoint lookup (k : string) (r : Dict) : option string :=
  match r with
  | [] => None
  | (k', v) :: r' => if String.eqb k k' then Some v else lookup k r'
  end.

(** [record[k]] *)
Definition getitem (r : Dict) (k : string) : Result string :=
  match lookup k r with
  | Some v => Ok v
  | None => Err (KeyError k)
  end.

(** [x in dates] *)
Fixpoint mem (x : string) (l : list string) : bool :=
  match l with
  | [] => false
  | y :: l' => String.eqb x y || mem x l'
  end.

(** The order [sorted_by] sorts with: field values are text and are
    compared as text, backwards when reverse is requested. *)
Definition key_le (reverse : bool) (a b : string) : bool :=
  if reverse then String.leb b a else String.leb a b.

(** Insertion before the first element that does not come earlier, so
    that records with equal keys keep their order. *)
Fixpoint insert_by (reverse : bool) (x : string * Dict)
         (l : list (string * Dict)) : list (string * Dict) :=
  match l with
  | [] => [x]
  | y :: l' =>
      if key_le reverse (fst x) (fst y) then x :: y :: l'
      else y :: insert_by reverse x l'
  end.

Definition sort_keyed (reverse : bool) (l : list (string * Dict))
  : list (string * Dict) :=
  fold_right (insert_by reverse) [] l.

Definition with_key (field : string) (r : Dict) : Result (string * Dict) :=
  match lookup field r with
  | Some v => Ok (v, r)
  | None => Err (FieldNotFoundError field)
  end.

(** Modelled from the spec: [ListDict.sorted_by(keyword, reverse=False)]
    (pyvantagepro/utils.py is missing).  Section 4.1: returns a new
    collection ordered by the field's value, stable with respect to ties,
    ascending unless reverse is requested; fails with [FieldNotFoundError]
    if any record lacks the field. *)
Definition sorted_by (field : string) (reverse : bool) (l : ListDict)
  : Result ListDict :=
  result_bind (result_map (with_key field) l) (fun keyed =>
  Ok (map snd (sort_keyed reverse keyed))).

(* ================================================================== *)
(** ** The delimited text format *)

(** Modelled from the spec: the text format of [ListDict.to_csv] and
    [csv_to_dict] (pyvantagepro/utils.py is missing).  Sections 4.1, 4.2 and
    6: delimited text with a configurable delimiter, the first row is a
    header of field names, each later row is a record, and a value that
    holds the delimiter or a newline is quoted.  Rows end with a line feed; a
    quoted value is wrapped in double quotes with every embedded double
    quote doubled. *)
Definition needs_quote (d : ascii) (f : string) : bool :=
  string_mem d f || string_mem dquote f || string_mem LF f.

Fixpoint escape (f : string) : string :=
  match f with
  | EmptyString => EmptyString
  | String c f' =>
      if Ascii.eqb c dquote then String dquote (String dquote (escape f'))
      else String c (escape f')
  end.

Definition quote_field (d : ascii) (f : string) : string :=
  if needs_quote d f then String dquote (escape f ++ String dquote EmptyString)
  else f.

Fixpoint join_fields (d : ascii) (fs : list string) : string :=
  match fs with
  | [] => EmptyString
  | f :: fs' =>
      match fs' with
      | [] => f
      | _ :: _ => f ++ String d (join_fields d fs')
      end
  end.

(** One written row: the fields, quoted where needed, joined by the
    delimiter and ended by a line feed. *)
Definition csv_row (d : ascii) (fs : list string) : string :=
  join_fields d (map (quote_field d) fs) ++ String LF EmptyString.

(** The states of the reader: at the start of a row, at the start of a
    field, inside a plain field, inside a quoted field, and after a quote
    met inside a quoted field. *)
Inductive cstate : Type :=
| RowStart | FieldStart | Unquoted | Quoted | QuoteEnd.

Definition Rows : Type := list (list string).

Definition push (c : ascii) (r : option Rows) : option Rows :=
  match r with
  | Some ((f :: row) :: rows) => Some ((String c f :: row) :: rows)
  | _ => None
  end.

Definition new_field (r : option Rows) : option Rows :=
  match r with
  | Some (row :: rows) => Some ((EmptyString :: row) :: rows)
  | _ => None
  end.

Definition new_row (r : option Rows) : option Rows :=
  match r with
  | Some rows => Some ([EmptyString] :: rows)
  | None => None
  end.

(** The reader is a scanner over the characters of the text.  It returns the
    rows still to come; the first field of the first row is the one being
    read.  [None] is a quote left open or text after a closing quote. *)
Fixpoint csv_scan (d : ascii) (st : cstate) (s : string) : option Rows :=
  match s with
  | EmptyString =>
      match st with
      | RowStart => Some []
      | Quoted => None
      | _ => Some [[EmptyString]]
      end
  | String c s' =>
      match st with
      | RowStart | FieldStart =>
          if Ascii.eqb c dquote then csv_scan d Quoted s'
          else if Ascii.eqb c d then new_field (csv_scan d FieldStart s')
          else if Ascii.eqb c LF then new_row (csv_scan d RowStart s')
          else push c (csv_scan d Unquoted s')
      | Unquoted =>
          if Ascii.eqb c d then new_field (csv_scan d FieldStart s')
          else if Ascii.eqb c LF then new_row (csv_scan d RowStart s')
          else push c (csv_scan d Unquoted s')
      | Quoted =>
          if Ascii.eqb c dquote then csv_scan d QuoteEnd s'
          else push c (csv_scan d Quoted s')
      | QuoteEnd =>
          if Ascii.eqb c dquote then push c (csv_scan d Quoted s')
          else if Ascii.eqb c d then new_field (csv_scan d FieldStart s')
          else if Ascii.eqb c LF then new_row (csv_scan d RowStart s')
          else None
      end
  end.

Definition csv_rows (d : ascii) (s : string) : option Rows :=
  csv_scan d RowStart s.

(* ================================================================== *)
(** ** Timestamps *)

(** [datetime.datetime], to the second. *)
Record datetime : Type := mkDatetime {
  year : nat; month : nat; day : nat;
  hour : nat; minute : nat; second : nat
}.

(** The format [update_cmd] parses the newest timestamp with. *)
Definition format_seconds : string := "%Y-%m-%d %H:%M:%S".

Definition strptime_error (text fmt : string) : Error :=
  ValueError ("time data '" ++ text ++ "' does not match format '" ++ fmt ++ "'").

(* ================================================================== *)
(** ** The world a command runs in *)

(** What a run does besides returning: printed lines, the calls the
    progress bar accepts, requests sent to the station, the logger switch
    and text written to [sys.stdout] as a stream. *)
Inductive Event : Type :=
| Print (line : string)
| PbarStart (maxval : nat)
| PbarUpdate (value : nat)
| PbarFinish
| Fetch (start stop : option datetime)
| ActiveLogger
| PrintHelp
| StdoutWrite (text : string).

(** The file named by [args.db] ([None] while it does not exist), the handle
    [update_cmd] opens on it, and the events so far, oldest first. *)
Record World : Type := mkWorld {
  file_db : option string;
  file_open : bool;
  file_pos : nat;
  trace : list Event
}.

Definition M (A : Type) : Type := World -> Result A * World.

Definition ret {A} (a : A) : M A := fun w => (Ok a, w).

Definition raise {A} (e : Error) : M A := fun w => (Err e, w).

Definition bind {A B} (m : M A) (k : A -> M B) : M B :=
  fun w =>
    match m w with
    | (Ok a, w') => k a w'
    | (Err e, w') => (Err e, w')
    end.

Definition lift {A} (r : Result A) : M A := fun w => (r, w).

Notation "x <- m ;; k" := (bind m (fun x => k))
  (at level 61, m at next level, right associativity).
Notation "m ;;; k" := (bind m (fun _ => k))
  (at level 61, right associativity).

Definition emit (ev : Event) : M unit :=
  fun w => (Ok tt, mkWorld (file_db w) (file_open w) (file_pos w) (trace w ++ [ev])).

(** [print(line)] *)
Definition print (line : string) : M unit := emit (Print line).

(** [pbar.update(value)] on a [ProgressBar] started with [maxval]: the
    progressbar package accepts a value from 0 to [maxval] and refuses any
    other with [ValueError('Value out of range')], before it records
    anything. *)
Definition pbar_update (maxval value : nat) : M unit :=
  if Nat.leb value maxval then emit (PbarUpdate value)
  else raise (ValueError "Value out of range").

Definition content (w : World) : string :=
  match file_db w with
  | Some c => c
  | None => EmptyString
  end.

(** [open(args.db, 'a').close()] *)
Definition touch : M unit :=
  fun w => (Ok tt, mkWorld (Some (content w)) (file_open w) (file_pos w) (trace w)).

(** [open(args.db, 'r+', newline='')]: the file must exist; the handle starts
    at position 0 and text passes through untranslated. *)
Definition open_rplus : M unit :=
  fun w =>
    match file_db w with
    | Some c => (Ok tt, mkWorld (Some c) true 0 (trace w))
    | None => (Err (OSError "No such file or directory"), w)
    end.

Definition close : World -> World :=
  fun w => mkWorld (file_db w) false (file_pos w) (trace w).

(** Reading the handle to its end. *)
Definition read_all : M string :=
  fun w =>
    (Ok (string_drop (file_pos w) (content w)),
     mkWorld (file_db w) (file_open w) (String.length (content w)) (trace w)).

(** [file_db.write(text)]: the text lands at the handle's position, over
    whatever is there, and the position moves past it. *)
Definition write (text : string) : M unit :=
  fun w =>
    let c := content w in
    let p := file_pos w in
    (Ok tt,
     mkWorld (Some (string_take p c ++ text ++ string_drop (p + String.length text) c)%string)
             (file_open w) (p + String.length text) (trace w)).

(** [with open(...) as file_db: body]: the handle is closed on every way out. *)
Definition with_open {A} (body : M A) : M A :=
  fun w =>
    match open_rplus w with
    | (Ok _, w1) => let (r, w2) := body w1 in (r, close w2)
    | (Err e, w1) => (Err e, w1)
    end.

(** The parsed command line. *)
Record Args : Type := mkArgs {
  args_debug : bool;
  args_url : string;
  args_timeout : nat;
  args_start : option datetime;
  args_stop : option datetime;
  args_delim : ascii;
  args_db : string
}.

Definition set_start (v : option datetime) (a : Args) : Args :=
  mkArgs (args_debug a) (args_url a) (args_timeout a) v (args_stop a)
         (args_delim a) (args_db a).

Definition set_debug (v : bool) (a : Args) : Args :=
  mkArgs v (args_url a) (args_timeout a) (args_start a) (args_stop a)
         (args_delim a) (args_db a).

Definition set_stop (v : option datetime) (a : Args) : Args :=
  mkArgs (args_debug a) (args_url a) (args_timeout a) (args_start a) v
         (args_delim a) (args_db a).

(** What a generator does when it is consumed: it yields records and then
    either stops or raises. *)
Record Generator : Type := mkGenerator {
  yielded : list Dict;
  raised : option Error
}.

(** The station: [vp._get_archives_generator(start, stop)]. *)
Record VantagePro2 : Type := mkVantagePro2 {
  _get_archives_generator : option datetime -> option datetime -> Generator
}.

Definition call_generator (vp : VantagePro2) (start stop : option datetime)
  : M Generator :=
  emit (Fetch start stop) ;;; ret (_get_archives_generator vp start stop).

(* ================================================================== *)
(** ** The commands *)

Section Commands.

(** [datetime.strptime(text, format)]; [None] stands for its [ValueError]. *)
Variable strptime : string -> string -> option datetime.

(** Modelled from the spec: the static schema of [to_csv]
    (pyvantagepro/utils.py is missing).  Section 4.1: the field names a
    header lists when the collection has no record; it is empty when
    [to_csv] has none. *)
Variable static_schema : list string.

(** [VantagePro2.from_url(url, timeout)] *)
Variable from_url : string -> nat -> Result VantagePro2.

(** The field names of the header: those of the first record, or the
    static schema if the collection is empty. *)
Definition schema_of (l : ListDict) : list string :=
  match l with
  | r :: _ => keys r
  | [] => static_schema
  end.

Definition field_of (r : Dict) (h : string) : Result string :=
  match lookup h r with
  | Some v => Ok v
  | None => Err (FieldNotFoundError h)
  end.

(** The values of a row, in header order; a record with a field the
    header lacks, or without a field the header has, is refused. *)
Definition row_values (hdr : list string) (r : Dict) : Result (list string) :=
  match find (fun k => negb (mem k hdr)) (keys r) with
  | Some k => Err (FieldNotFoundError k)
  | None => result_map (field_of r) hdr
  end.

Definition rows_text (d : ascii) (rows : Rows) : string :=
  string_concat (map (csv_row d) rows).

(** The header row of a collection: the field names of [schema_of]; an
    empty collection under an empty static schema has no field name to list
    and no header row. *)
Definition header_row (delimiter : ascii) (l : ListDict) : string :=
  match l, static_schema with
  | [], [] => EmptyString
  | _, _ => csv_row delimiter (schema_of l)
  end.

(** Modelled from the spec: [ListDict.to_csv(delimiter, header=True)]
    (pyvantagepro/utils.py is missing).  Section 4.1: the header row lists
    the field names of the first record, or a static schema if the
    collection is empty; every row has exactly the fields of the header, in
    the same order; a field absent from the schema is a
    [FieldNotFoundError]. *)
Definition to_csv (delimiter : ascii) (header : bool) (l : ListDict)
  : Result string :=
  let hdr := schema_of l in
  result_bind (result_map (row_values hdr) l) (fun rows =>
  Ok ((if header then header_row delimiter l else EmptyString)
      ++ rows_text delimiter rows)%string).

(** A row read under a header: it must have as many fields as the header
    and a [Datetime] that parses. *)
Definition row_to_record (hdr row : list string) : Result Dict :=
  if Nat.eqb (List.length row) (List.length hdr) then
    let r := combine hdr row in
    match lookup "Datetime" r with
    | Some t =>
        match strptime t format_seconds with
        | Some _ => Ok r
        | None => Err (MalformedStoreError "timestamp cannot be parsed")
        end
    | None => Err (MalformedStoreError "header is missing")
    end
  else Err (MalformedStoreError "wrong field count").

(** Modelled from the spec: what [csv_to_dict] makes of the text of the
    stream (pyvantagepro/utils.py is missing).  Section 4.2: parses header
    and rows; an empty stream is an empty collection; fails with
    [MalformedStoreError] if the header is missing, a row has the wrong
    field count, or a timestamp field cannot be parsed. *)
Definition csv_text_to_dict (delimiter : ascii) (text : string)
  : Result ListDict :=
  match csv_rows delimiter text with
  | None => Err (MalformedStoreError "unbalanced quote")
  | Some [] => Ok []
  | Some (hdr :: rows) =>
      if mem "Datetime" hdr then result_map (row_to_record hdr) rows
      else Err (MalformedStoreError "header is missing")
  end.

(** Modelled from the spec: [csv_to_dict(file_input, delimiter)]
    (pyvantagepro/utils.py is missing).  Section 4.2: the stream is read to
    its end and parsed. *)
Definition csv_to_dict (delimiter : ascii) : M ListDict :=
  text <- read_all ;; lift (csv_text_to_dict delimiter text).

(** Steps 1 and 2 of section 4.4: the records whose [Datetime] is not in
    [seen] and has not come earlier, in the order they arrive. *)
Fixpoint first_seen (seen : list string) (records : list Dict)
  : Result ListDict :=
  match records with
  | [] => Ok []
  | r :: rest =>
      result_bind (getitem r "Datetime") (fun d =>
      if mem d seen then first_seen seen rest
      else result_bind (first_seen (d :: seen) rest) (fun acc => Ok (r :: acc)))
  end.

(** Modelled from the spec: [VantagePro2.get_archives(start, stop)]
    (pyvantagepro/device.py is missing).  Section 4.4 with no progress
    collaborator: keep the records whose [Datetime] has not been seen, in
    the order they arrive, and return them sorted by [Datetime]. *)
Definition get_archives (vp : VantagePro2) (start stop : option datetime)
  : M ListDict :=
  g <- call_generator vp start stop ;;
  accumulated <- lift (first_seen [] (yielded g)) ;;
  match raised g with
  | Some e => raise e
  | None => lift (sorted_by "Datetime" false accumulated)
  end.

(** [len(archives)] as printed by an f-string. *)
Definition str_of_nat (n : nat) : string :=
  DecimalString.NilZero.string_of_uint (Nat.to_uint n).

(** The body of [for step, record in enumerate(generator)], under the bar
    that [getarchives] starts with [maxval=2600]. *)
Fixpoint archives_loop (step : nat) (records : list Dict)
         (archives : ListDict) (dates : list string)
  : M (ListDict * list string) :=
  match records with
  | [] => ret (archives, dates)
  | record :: rest =>
      pbar_update 2600 step ;;;
      d <- lift (getitem record "Datetime") ;;
      if negb (mem d dates)
      then archives_loop (S step) rest (archives ++ [record]) (dates ++ [d])
      else archives_loop (S step) rest archives dates
  end.

(** [getarchives(args, vp)] *)
Definition getarchives (args : Args) (vp : VantagePro2) : M ListDict :=
  if args_debug args then get_archives vp (args_start args) (args_stop args)
  else
    generator <- call_generator vp (args_start args) (args_stop args) ;;
    emit (PbarStart 2600) ;;;
    st <- archives_loop 0 (yielded generator) [] [] ;;
    let archives := fst st in
    match raised generator with
    | Some e => raise e
    | None =>
        emit PbarFinish ;;;
        (match List.length archives with
         | 0 => print "No new records were found"
         | 1 => print "1 new record was found"
         | n => print (str_of_nat n ++ " new records were found")
         end) ;;;
        lift (sorted_by "Datetime" false archives)
    end.

(** [db[0]] *)
Definition first_item (l : ListDict) : Result Dict :=
  match l with
  | r :: _ => Ok r
  | [] => Err (IndexError "list index out of range")
  end.

Definition parse_timestamp (text : string) : Result datetime :=
  match strptime text format_seconds with
  | Some t => Ok t
  | None => Err (strptime_error text format_seconds)
  end.

(** [update_cmd(args, vp)] *)
Definition update_cmd (args : Args) (vp : VantagePro2) : M unit :=
  touch ;;;
  with_open (
    db <- csv_to_dict (args_delim args) ;;
    let args := set_start None args in
    let args := set_stop None args in
    if Nat.ltb 0 (List.length db) then
      db <- lift (sorted_by "Datetime" true db) ;;
      r0 <- lift (first_item db) ;;
      text <- lift (getitem r0 "Datetime") ;;
      start_date <- lift (parse_timestamp text) ;;
      let args := set_start (Some start_date) args in
      items <- getarchives args vp ;;
      out <- lift (to_csv (args_delim args) false items) ;;
      write out
    else
      items <- getarchives args vp ;;
      out <- lift (to_csv (args_delim args) true items) ;;
      write out).

(** How [main] ends: it returns, an exception leaves it, or
    [parser.error(message)] exits with status 2. *)
Inductive Outcome : Type :=
| Returned
| Raised (e : Error)
| SystemExit (status : nat) (message : string).

(** The last lines of [main], once the command line is parsed: [func] is the
    command chosen on it, if any. *)
Definition main (args : Args) (func : option (Args -> VantagePro2 -> M unit))
  : World -> Outcome * World :=
  fun w =>
    match func with
    | Some f =>
        let run := vp <- lift (from_url (args_url args) (args_timeout args)) ;;
                   f args vp in
        if args_debug args then
          match (emit ActiveLogger ;;; run) w with
          | (Ok _, w') => (Returned, w')
          | (Err e, w') => (Raised e, w')
          end
        else
          match run w with
          | (Ok _, w') => (Returned, w')
          | (Err e, w') => (SystemExit 2 (error_str e), w')
          end
    | None =>
        match emit PrintHelp w with
        | (_, w') => (Returned, w')
        end
    end.

End Commands.

(* ================================================================== *)
(** ** A station and a clock to run the commands on *)

Definition digit (c : ascii) : option nat :=
  let n := nat_of_ascii c in
  if Nat.leb 48 n && Nat.leb n 57 then Some (n - 48) else None.

Fixpoint number (acc : nat) (cs : list ascii) : option nat :=
  match cs with
  | [] => Some acc
  | c :: cs' =>
      match digit c with
      | Some k => number (10 * acc + k) cs'
      | None => None
      end
  end.

Definition in_range (lo hi : nat) (n : option nat) : option nat :=
  match n with
  | Some k => if Nat.leb lo k && Nat.leb k hi then Some k else None
  | None => None
  end.

(** [strptime] on the fixed-width layout [YYYY-MM-DD HH:MM:SS]. *)
Definition strptime_fixed (text fmt : string) : option datetime :=
  if String.eqb fmt format_seconds then
    match list_ascii_of_string text with
    | [y1; y2; y3; y4; p1; m1; m2; p2; d1; d2; p3; h1; h2; p4; n1; n2; p5; s1; s2] =>
        if String.eqb (string_of_list_ascii [p1; p2; p3; p4; p5]) "-- ::" then
          match in_range 1 (100 * 100 - 1) (number 0 [y1; y2; y3; y4]),
                in_range 1 12 (number 0 [m1; m2]),
                in_range 1 31 (number 0 [d1; d2]),
                in_range 0 23 (number 0 [h1; h2]),
                in_range 0 59 (number 0 [n1; n2]),
                in_range 0 59 (number 0 [s1; s2]) with
          | Some y, Some m, Some d, Some h, Some n, Some s =>
              Some (mkDatetime y m d h n s)
          | _, _, _, _, _, _ => None
          end
        else None
    | _ => None
    end
  else None.

Definition datetime_fields (t : datetime) : list nat :=
  [year t; month t; day t; hour t; minute t; second t].

Fixpoint fields_leb (a b : list nat) : bool :=
  match a, b with
  | x :: a', y :: b' =>
      if Nat.ltb x y then true
      else if Nat.ltb y x then false
      else fields_leb a' b'
  | _, _ => true
  end.

Definition datetime_leb (a b : datetime) : bool :=
  fields_leb (datetime_fields a) (datetime_fields b).

(** Whether a record lies in the window, both bounds included. *)
Definition in_window (start stop : option datetime) (r : Dict) : bool :=
  match lookup "Datetime" r with
  | Some text =>
      match strptime_fixed text format_seconds with
      | Some t =>
          match start with Some a => datetime_leb a t | None => true end
          && match stop with Some b => datetime_leb t b | None => true end
      | None => false
      end
  | None => false
  end.

(** Modelled from the spec: the device collaborator (pyvantagepro/device.py
    is missing).  Section 6: given an optional inclusive start and an
    optional inclusive stop, it yields the records of its archive memory
    that lie in the window. *)
Definition station (memory : list Dict) : VantagePro2 :=
  mkVantagePro2 (fun start stop =>
    mkGenerator (filter (in_window start stop) memory) None).

(** A station whose link fails after it has yielded [sent]. *)
Definition broken_station (sent : list Dict) (e : Error) : VantagePro2 :=
  mkVantagePro2 (fun _ _ => mkGenerator sent (Some e)).

Definition comma : ascii := ","%char.

Definition default_args (debug : bool) : Args :=
  mkArgs debug "tcp:station:1111" 10 None None comma "db.csv".

Definition new_world (file : option string) : World :=
  mkWorld file false 0 [].

(** The store and the station of the scenario of section 8. *)
Definition rec_0000 : Dict :=
  [("Datetime", "2024-01-01 00:00:00"); ("Temp", "20")].
Definition rec_0005 : Dict :=
  [("Datetime", "2024-01-01 00:05:00"); ("Temp", "21")].
Definition store_one : string :=
  csv_row comma ["Datetime"; "Temp"] ++ csv_row comma (values rec_0000).

Definition rec_0005_again : Dict :=
  [("Datetime", "2024-01-01 00:05:00"); ("Temp", "99")].

Definition schema : list string := ["Datetime"; "Temp"].

Definition midnight : datetime := mkDatetime 2024 1 1 0 0 0.

Definition link_down : Error := ConnectivityError "link down".

Definition flaky_url (_ : string) (_ : nat) : Result VantagePro2 :=
  Ok (broken_station [rec_0005] link_down).

Definition rec_2355 : Dict :=
  [("Datetime", "2023-12-31 23:55:00"); ("Temp", "19")].

Definition rec_0010 : Dict :=
  [("Datetime", "2024-01-01 00:10:00"); ("Temp", "21,5")].

(* ================================================================== *)
(** ** Notions the statements are written with *)

(** [record['Datetime']] of a record that has the field. *)
Definition Datetime (r : Dict) : string :=
  match lookup "Datetime" r with
  | Some v => v
  | None => EmptyString
  end.

Definition has_datetime (r : Dict) : Prop := lookup "Datetime" r <> None.

(** The requests a trace sent to the station, oldest first. *)
Definition fetches (tr : list Event) : list (option datetime * option datetime) :=
  flat_map (fun ev => match ev with Fetch a b => [(a, b)] | _ => [] end) tr.

(** What consuming a generator comes to, effects aside. *)
Definition fetch_result (g : Generator) : Result ListDict :=
  result_bind (first_seen [] (yielded g)) (fun acc =>
  match raised g with
  | Some e => Err e
  | None => sorted_by "Datetime" false acc
  end).

(** What the loop of [getarchives] keeps when it starts at [step]: the
    records [first_seen] keeps, unless the bar refuses a step. *)
Fixpoint bar_seen (step : nat) (seen : list string) (records : list Dict)
  : Result ListDict :=
  match records with
  | [] => Ok []
  | r :: rest =>
      if Nat.leb step 2600 then
        result_bind (getitem r "Datetime") (fun d =>
        if mem d seen then bar_seen (S step) seen rest
        else result_bind (bar_seen (S step) (d :: seen) rest)
                         (fun acc => Ok (r :: acc)))
      else Err (ValueError "Value out of range")
  end.

(** What [getarchives] returns for a generator, effects aside: with
    [debug] the result of [get_archives], without it that of the loop under
    the bar. *)
Definition fetch_outcome (debug : bool) (g : Generator) : Result ListDict :=
  if debug then fetch_result g
  else
    result_bind (bar_seen 0 [] (yielded g)) (fun acc =>
    match raised g with
    | Some e => Err e
    | None => sorted_by "Datetime" false acc
    end).

(** The bar of [getarchives] has room for [n] records: steps 0 to 2600;
    with [debug] there is no bar. *)
Definition bar_room (debug : bool) (n : nat) : Prop :=
  debug = true \/ n <= 2601.

(** The text written to [sys.stdout] as a stream, oldest first. *)
Definition written_out (tr : list Event) : list string :=
  flat_map (fun ev => match ev with StdoutWrite text => [text] | _ => [] end) tr.

Definition ascending (l : ListDict) : Prop :=
  forall i a b, nth_error l i = Some a -> nth_error l (S i) = Some b ->
                String.leb (Datetime a) (Datetime b) = true.

Definition is_empty (l : ListDict) : bool :=
  match l with
  | [] => true
  | _ :: _ => false
  end.

(** What [update_cmd] asks the station for, given the loaded store. *)
Definition resume_point (strptime : string -> string -> option datetime)
           (db : ListDict) : Result (option datetime) :=
  if Nat.ltb 0 (List.length db) then
    result_bind (sorted_by "Datetime" true db) (fun sorted =>
    result_bind (first_item sorted) (fun r0 =>
    result_bind (getitem r0 "Datetime") (fun text =>
    result_bind (parse_timestamp strptime text) (fun t => Ok (Some t)))))
  else Ok None.

(** The text [update_cmd] writes, given the text of the store. *)
Definition update_plan (strptime : string -> string -> option datetime)
           (static_schema : list string)
           (args : Args) (vp : VantagePro2) (c : string) : Result string :=
  result_bind (csv_text_to_dict strptime (args_delim args) c) (fun db =>
  result_bind (resume_point strptime db) (fun start =>
  result_bind (fetch_outcome (args_debug args)
                             (_get_archives_generator vp start None)) (fun items =>
  to_csv static_schema (args_delim args) (negb (Nat.ltb 0 (List.length db))) items))).

Definition planned_request (strptime : string -> string -> option datetime)
           (args : Args) (c : string)
  : list (option datetime * option datetime) :=
  match result_bind (csv_text_to_dict strptime (args_delim args) c)
                    (resume_point strptime) with
  | Ok start => [(start, None)]
  | Err _ => []
  end.

Definition appended (r : Result string) : string :=
  match r with
  | Ok text => text
  | Err _ => EmptyString
  end.

Definition done (r : Result string) : Result unit :=
  match r with
  | Ok _ => Ok tt
  | Err e => Err e
  end.

(** A record fits a schema when its fields are the schema's, in order, and
    its timestamp parses. *)
Definition well_formed (strptime : string -> string -> option datetime)
           (hdr : list string) (r : Dict) : Prop :=
  keys r = hdr /\ exists t, strptime (Datetime r) format_seconds = Some t.

(** A collection has a consistent schema when the schema names each field
    once, [Datetime] among them, and every record fits it. *)
Definition consistent (strptime : string -> string -> option datetime)
           (hdr : list string) (l : ListDict) : Prop :=
  NoDup hdr /\ In "Datetime" hdr /\ Forall (well_formed strptime hdr) l.

(** A generator the fetch goes through on: it raises nothing, its records
    fit the schema [hdr], and the bar has room for them. *)
Definition goes_through (strptime : string -> string -> option datetime)
           (hdr : list string) (debug : bool) (g : Generator) : Prop :=
  raised g = None
  /\ Forall (well_formed strptime hdr) (yielded g)
  /\ bar_room debug (List.length (yielded g)).

(** The text of a store that holds the header [hdr] and the records [l]. *)
Definition store_text (d : ascii) (hdr : list string) (l : ListDict) : string :=
  (csv_row d hdr ++ rows_text d (map values l))%string.

(** A record whose timestamp is there and parses. *)
Definition parses (strptime : string -> string -> option datetime)
           (r : Dict) : Prop :=
  has_datetime r /\ exists t, strptime (Datetime r) format_seconds = Some t.

(** [r0] is a newest record of [db]. *)
Definition newest (db : ListDict) (r0 : Dict) : Prop :=
  In r0 db /\ forall r, In r db -> String.leb (Datetime r) (Datetime r0) = true.

(** Orders, scanner steps and traces the lemmas are written with. *)
Definition keyed_le (rv : bool) (a b : string * Dict) : Prop :=
  key_le rv (fst a) (fst b) = true.

Definition by_datetime (rv : bool) (a b : Dict) : Prop :=
  key_le rv (Datetime a) (Datetime b) = true.

(** A record of [l] is first for its timestamp when no earlier record of [l]
    carries the same one. *)
Definition first_for (l : list Dict) (r : Dict) : Prop :=
  exists l1 l2, l = l1 ++ r :: l2
                /\ forall x, In x l1 -> Datetime x <> Datetime r.

(** The loop of [getarchives] keeps what [first_seen] keeps. *)
Definition kept (r : Result (ListDict * list string)) : Result ListDict :=
  match r with
  | Ok st => Ok (fst st)
  | Err e => Err e
  end.

Definition add_trace (w : World) (added : list Event) : World :=
  mkWorld (file_db w) (file_open w) (file_pos w) (trace w ++ added).

Fixpoint pushs (f : string) (r : option Rows) : option Rows :=
  match f with
  | EmptyString => r
  | String c f' => push c (pushs f' r)
  end.

Definition ends_field (d : ascii) (rest : string) : Prop :=
  exists c r, rest = String c r /\ (c = d \/ c = LF).

Definition prepend (row : list string) (r : option Rows) : option Rows :=
  match r with
  | Some rows => Some (row :: rows)
  | None => None
  end.

(* ================================================================== *)
(** ** The other commands of the command line *)

(** A computation over a state [S] that may raise; [M] is [SM World]. *)
Definition SM (S A : Type) : Type := S -> Result A * S.

Definition sm_ret {S A} (a : A) : SM S A := fun s => (Ok a, s).

Definition sm_bind {S A B} (m : SM S A) (k : A -> SM S B) : SM S B :=
  fun s =>
    match m s with
    | (Ok a, s') => k a s'
    | (Err e, s') => (Err e, s')
    end.

Definition sm_lift {S A} (r : Result A) : SM S A := fun s => (r, s).

Notation "x <~ m ;; k" := (sm_bind m (fun x => k))
  (at level 61, m at next level, right associativity).

(** A computation on one half of a pair of states. *)
Definition on_fst {S T A} (m : SM S A) : SM (S * T) A :=
  fun st => match m (fst st) with (r, s') => (r, (s', snd st)) end.

Definition on_snd {S T A} (m : SM T A) : SM (S * T) A :=
  fun st => match m (snd st) with (r, t') => (r, (fst st, t')) end.

(** The format the bounds of [getarchives] and the argument of [settime]
    are parsed with. *)
Definition format_minutes : string := "%Y-%m-%d %H:%M".

(** Where [--output] points: [sys.stdout], which is the default and what
    [argparse.FileType('w')] makes of [-], or a file opened for writing. *)
Inductive Output : Type :=
| Stdout
| OutputFile.

(** The command line of [getarchives], as argparse leaves it: the bounds
    and the delimiter are still text. *)
Record ArchivesArgs : Type := mkArchivesArgs {
  cmd_debug : bool;
  cmd_url : string;
  cmd_timeout : nat;
  cmd_start : option string;
  cmd_stop : option string;
  cmd_delim : string;
  cmd_output : Output
}.

(** The namespace once [getarchives_cmd] has replaced the bounds by their
    timestamps, as [getarchives] reads it: the fields [getarchives] does not
    read are left at a default. *)
Definition fetch_args (a : ArchivesArgs) (start stop : option datetime) : Args :=
  mkArgs (cmd_debug a) (cmd_url a) (cmd_timeout a) start stop ","%char "".

(** [args.output.write(text)], over the world and the text of the output
    file: on [sys.stdout] the text goes where [print] writes, after the
    lines printed so far; on a file it follows the text written so far. *)
Definition output_write (output : Output) (text : string)
  : SM (World * string) unit :=
  match output with
  | Stdout => on_fst (emit (StdoutWrite text))
  | OutputFile => fun st => (Ok tt, (fst st, (snd st ++ text)%string))
  end.

Section ArchivesCommand.

Variable strptime : string -> string -> option datetime.

(** [bytes(text, "utf-8").decode("unicode_escape")] *)
Variable unicode_escape : string -> Result string.

(** [ListDict.to_csv(delimiter=text)], header included, for a delimiter
    given as text. *)
Variable to_csv_text : string -> ListDict -> Result string.

(** [datetime.strptime(text, "%Y-%m-%d %H:%M")] of a bound that was given,
    [None] otherwise. *)
Definition parse_bound (text : option string) : Result (option datetime) :=
  match text with
  | Some s =>
      match strptime s format_minutes with
      | Some t => Ok (Some t)
      | None => Err (strptime_error s format_minutes)
      end
  | None => Ok None
  end.

(** [getarchives_cmd(args, vp)], over the world and the output file. *)
Definition getarchives_cmd (args : ArchivesArgs) (vp : VantagePro2)
  : SM (World * string) unit :=
  delim <~ sm_lift (unicode_escape (cmd_delim args)) ;;
  start <~ sm_lift (parse_bound (cmd_start args)) ;;
  stop <~ sm_lift (parse_bound (cmd_stop args)) ;;
  items <~ on_fst (getarchives (fetch_args args start stop) vp) ;;
  text <~ sm_lift (to_csv_text delim items) ;;
  output_write (cmd_output args) text.

End ArchivesCommand.

(** The arguments of [settime] and [setperiod]. *)
Record TimeArgs : Type := mkTimeArgs { args_datetime : string }.
Record PeriodArgs : Type := mkPeriodArgs { args_period : string }.

Section StationCommands.

Variable strptime : string -> string -> option datetime.

(** The station behind [vp] and the calls the commands make on it; each may
    raise and may change the station. *)
Variable Station : Type.
Variable gettime : SM Station datetime.
Variable settime : datetime -> SM Station unit.
Variable timezone : SM Station string.
Variable getperiod : SM Station string.
Variable setperiod : string -> SM Station unit.
Variable firmware_date : SM Station string.
Variable firmware_version : SM Station string.
Variable diagnostics : SM Station string.

(** [str] of a timestamp, as an f-string shows it. *)
Variable str_datetime : datetime -> string.

Definition say (line : string) : SM (World * Station) unit :=
  on_fst (print line).

(** [gettime_cmd(args, vp)] *)
Definition gettime_cmd : SM (World * Station) unit :=
  t <~ on_snd gettime ;;
  tz <~ on_snd timezone ;;
  say (str_datetime t ++ " - " ++ tz).

(** [settime_cmd(args, vp)] *)
Definition settime_cmd (args : TimeArgs) : SM (World * Station) unit :=
  old_time <~ on_snd gettime ;;
  t <~ sm_lift (match strptime (args_datetime args) format_minutes with
                | Some t => Ok t
                | None => Err (strptime_error (args_datetime args) format_minutes)
                end) ;;
  _ <~ on_snd (settime t) ;;
  tz <~ on_snd timezone ;;
  _ <~ say ("Old value: " ++ str_datetime old_time ++ " - " ++ tz) ;;
  new_time <~ on_snd gettime ;;
  tz' <~ on_snd timezone ;;
  say ("New value: " ++ str_datetime new_time ++ " - " ++ tz').

(** [getinfo_cmd(args, vp)] *)
Definition getinfo_cmd : SM (World * Station) unit :=
  d <~ on_snd firmware_date ;;
  v <~ on_snd firmware_version ;;
  g <~ on_snd diagnostics ;;
  say ("Firmware date: " ++ d ++ String LF
       ("Firmware version: " ++ v ++ String LF
        ("Diagnostics: " ++ g ++ String LF ""))).

(** [getperiod_cmd(args, vp)] *)
Definition getperiod_cmd : SM (World * Station) unit :=
  p <~ on_snd getperiod ;;
  say p.

(** [setperiod_cmd(args, vp)] *)
Definition setperiod_cmd (args : PeriodArgs) : SM (World * Station) unit :=
  old_period <~ on_snd getperiod ;;
  _ <~ on_snd (setperiod (args_period args)) ;;
  _ <~ say ("Old value: " ++ old_period) ;;
  say ("New value: " ++ args_period args).

End StationCommands.

Arguments say {Station} line.
Arguments gettime_cmd {Station} gettime timezone str_datetime.
Arguments settime_cmd strptime {Station} gettime settime timezone str_datetime args.
Arguments getinfo_cmd {Station} firmware_date firmware_version diagnostics.
Arguments getperiod_cmd {Station} getperiod.
Arguments setperiod_cmd {Station} getperiod setperiod args.

(** The number of records the loop of [getarchives] reaches when the bar
    has room for them: all of them, or those up to the first one without a
    [Datetime]. *)
Fixpoint processed (records : list Dict) : nat :=
  match records with
  | [] => 0
  | r :: rest =>
      match lookup "Datetime" r with
      | Some _ => S (processed rest)
      | None => 1
      end
  end.

(** [pbar.update(from)], ..., [pbar.update(from + n - 1)] *)
Definition bar_updates (from n : nat) : list Event :=
  map PbarUpdate (seq from n).

(** The line [getarchives] prints for [n] records. *)
Definition summary_line (n : nat) : string :=
  match n with
  | 0 => "No new records were found"
  | 1 => "1 new record was found"
  | _ => str_of_nat n ++ " new records were found"
  end.

(** The lines a trace printed, oldest first. *)
Definition printed (tr : list Event) : list string :=
  flat_map (fun ev => match ev with Print line => [line] | _ => [] end) tr.

(** A clock that keeps the time it was set to, in a fixed time zone, and a
    [strptime] for both formats, to run the station commands on. *)
Definition clock_gettime : SM datetime datetime := fun s => (Ok s, s).
Definition clock_settime (t : datetime) : SM datetime unit := fun _ => (Ok tt, t).
Definition clock_timezone : SM datetime string := fun s => (Ok "UTC", s).

Definition strptime_both (text fmt : string) : option datetime :=
  if String.eqb fmt format_minutes
  then strptime_fixed (text ++ ":00") format_seconds
  else strptime_fixed text fmt.

Definition one_char (delimiter : string) (l : ListDict) : Result string :=
  match delimiter with
  | String c EmptyString => to_csv schema c true l
  | _ => Err (ValueError "delimiter must be a 1-character string")
  end.

(** What the run of [getarchives] with the progress bar ends with, after the
    request, the start of the bar and its updates. *)
Definition bar_ending (g : Generator) : Result ListDict * list Event :=
  match bar_seen 0 [] (yielded g) with
  | Err e => (Err e, [])
  | Ok acc =>
      match raised g with
      | Some e => (Err e, [])
      | None => (sorted_by "Datetime" false acc,
                 [PbarFinish; Print (summary_line (List.length acc))])
      end
  end.

(** A station that yields the given records, whatever the window. *)
Definition playback (records : list Dict) : VantagePro2 :=
  mkVantagePro2 (fun _ _ => mkGenerator records None).

Definition rec_no_datetime : Dict := [("Temp", "22")].

(** The archive of a station that records every five minutes from
    2024-01-01 00:00:00 on: its [i]-th record and its first [n] records. *)
Definition two_digits (n : nat) : string :=
  String (ascii_of_nat (48 + n / 10)) (String (ascii_of_nat (48 + n mod 10)) "").

Definition archive_record (i : nat) : Dict :=
  [("Datetime",
    ("2024-01-" ++ two_digits (1 + i / 288) ++ " " ++ two_digits ((i mod 288) / 12)
     ++ ":" ++ two_digits ((i mod 12) * 5) ++ ":00")%string);
   ("Temp", "20")].

Definition archive (n : nat) : list Dict := map archive_record (seq 0 n).

Definition show_datetime (t : datetime) : string :=
  str_of_nat (year t) ++ "-" ++ str_of_nat (month t) ++ "-" ++ str_of_nat (day t)
  ++ " " ++ str_of_nat (hour t) ++ ":" ++ str_of_nat (minute t)
  ++ ":" ++ str_of_nat (second t).

(* ================================================================== *)
(** ** Text and order lemmas *)

Lemma append_nil_r (s : string) : (s ++ "")%string = s.
Proof. induction s as [|c s IH]; simpl; [reflexivity | now rewrite IH]. Qed.

Lemma append_assoc (a b c : string) :
  ((a ++ b) ++ c)%string = (a ++ (b ++ c))%string.
Proof. induction a as [|x a IH]; simpl; [reflexivity | now rewrite IH]. Qed.

Lemma string_take_length (s : string) : string_take (String.length s) s = s.
Proof. induction s as [|c s IH]; simpl; [reflexivity | now rewrite IH]. Qed.

Lemma string_drop_past (s : string) (n : nat) :
  string_drop (String.length s + n) s = EmptyString.
Proof. induction s as [|c s IH]; simpl; [now destruct n | exact IH]. Qed.

Lemma ascii_compare_refl (a : ascii) : Ascii.compare a a = Eq.
Proof. unfold Ascii.compare. apply N.compare_refl. Qed.

Lemma ascii_compare_trans (c : comparison) (x y z : ascii) :
  Ascii.compare x y = c -> Ascii.compare y z = c -> Ascii.compare x z = c.
Proof.
  unfold Ascii.compare. destruct c; intros H1 H2.
  - apply N.compare_eq_iff in H1, H2. rewrite H1, H2. apply N.compare_refl.
  - rewrite N.compare_lt_iff in *. lia.
  - rewrite N.compare_gt_iff in *. lia.
Qed.

Lemma string_compare_lt_trans (x y z : string) :
  String.compare x y = Lt -> String.compare y z = Lt -> String.compare x z = Lt.
Proof.
  revert y z. induction x as [|a x IH]; intros [|b y] [|c z]; simpl;
    try easy.
  destruct (Ascii.compare a b) eqn:Hab; try easy;
    destruct (Ascii.compare b c) eqn:Hbc; try easy; intros H1 H2.
  - apply Ascii.compare_eq_iff in Hab, Hbc. subst.
    rewrite ascii_compare_refl. eauto.
  - apply Ascii.compare_eq_iff in Hab. subst. now rewrite Hbc.
  - apply Ascii.compare_eq_iff in Hbc. subst. now rewrite Hab.
  - now rewrite (ascii_compare_trans Lt a b c Hab Hbc).
Qed.

Lemma string_leb_refl (x : string) : String.leb x x = true.
Proof.
  unfold String.leb.
  assert (H : String.compare x x = Eq).
  { induction x as [|a x IH]; simpl; [reflexivity|].
    now rewrite ascii_compare_refl. }
  now rewrite H.
Qed.

Lemma string_leb_trans (x y z : string) :
  String.leb x y = true -> String.leb y z = true -> String.leb x z = true.
Proof.
  unfold String.leb.
  destruct (String.compare x y) eqn:Hxy; try easy;
    destruct (String.compare y z) eqn:Hyz; try easy; intros _ _.
  - apply String.compare_eq_iff in Hxy. subst. now rewrite Hyz.
  - apply String.compare_eq_iff in Hxy. subst. now rewrite Hyz.
  - apply String.compare_eq_iff in Hyz. subst. now rewrite Hxy.
  - now rewrite (string_compare_lt_trans x y z Hxy Hyz).
Qed.

Lemma key_le_total (rv : bool) (a b : string) :
  key_le rv a b = false -> key_le rv b a = true.
Proof.
  unfold key_le. destruct rv; intros H.
  - destruct (String.leb_total a b) as [E|E]; congruence.
  - destruct (String.leb_total a b) as [E|E]; congruence.
Qed.

Lemma key_le_trans (rv : bool) (a b c : string) :
  key_le rv a b = true -> key_le rv b c = true -> key_le rv a c = true.
Proof.
  unfold key_le. destruct rv; intros H1 H2.
  - exact (string_leb_trans c b a H2 H1).
  - exact (string_leb_trans a b c H1 H2).
Qed.

(* ================================================================== *)
(** ** [sorted_by] *)

Lemma insert_by_perm rv x l : Permutation (x :: l) (insert_by rv x l).
Proof.
  induction l as [|y l IH]; simpl; [apply Permutation_refl|].
  destruct (key_le rv (fst x) (fst y)); [apply Permutation_refl|].
  eapply perm_trans; [apply perm_swap|]. now apply perm_skip.
Qed.

Lemma sort_keyed_perm rv l : Permutation l (sort_keyed rv l).
Proof.
  induction l as [|x l IH]; simpl; [constructor|].
  eapply perm_trans; [apply perm_skip, IH | apply insert_by_perm].
Qed.

Lemma insert_by_sorted rv x l :
  StronglySorted (keyed_le rv) l -> StronglySorted (keyed_le rv) (insert_by rv x l).
Proof.
  induction 1 as [|y l Hs IH Hy]; simpl.
  - repeat constructor.
  - destruct (key_le rv (fst x) (fst y)) eqn:E.
    + constructor; [now constructor|]. constructor; [exact E|].
      eapply Forall_impl; [|exact Hy]. intros z Hz.
      exact (key_le_trans rv _ _ _ E Hz).
    + constructor; [exact IH|].
      eapply Permutation_Forall; [apply insert_by_perm|].
      constructor; [|exact Hy]. now apply key_le_total.
Qed.

Lemma sort_keyed_sorted rv l : StronglySorted (keyed_le rv) (sort_keyed rv l).
Proof.
  induction l as [|x l IH]; simpl; [constructor | now apply insert_by_sorted].
Qed.

Lemma mem_In (x : string) (l : list string) : mem x l = true <-> In x l.
Proof.
  induction l as [|y l IH]; simpl; [easy|].
  rewrite orb_true_iff, IH, String.eqb_eq. intuition congruence.
Qed.

Lemma mem_app (x : string) (l1 l2 : list string) :
  mem x (l1 ++ l2) = mem x l1 || mem x l2.
Proof.
  induction l1 as [|y l1 IH]; simpl; [reflexivity|].
  now rewrite IH, orb_assoc.
Qed.

Lemma has_datetime_lookup (r : Dict) :
  has_datetime r -> lookup "Datetime" r = Some (Datetime r).
Proof.
  unfold has_datetime, Datetime. now destruct (lookup "Datetime" r).
Qed.

Lemma with_key_all (l : ListDict) :
  Forall has_datetime l ->
  result_map (with_key "Datetime") l = Ok (map (fun r => (Datetime r, r)) l).
Proof.
  induction 1 as [|r l Hr _ IH]; simpl; [reflexivity|].
  unfold with_key at 1. rewrite (has_datetime_lookup r Hr). simpl.
  now rewrite IH.
Qed.

Lemma sort_keyed_fst (rv : bool) (l : ListDict) :
  Forall (fun p => fst p = Datetime (snd p))
         (sort_keyed rv (map (fun r => (Datetime r, r)) l)).
Proof.
  eapply Permutation_Forall; [apply sort_keyed_perm|].
  apply Forall_forall. intros p Hp. apply in_map_iff in Hp.
  destruct Hp as [r [<- _]]. reflexivity.
Qed.

Lemma sorted_snd (rv : bool) (l : list (string * Dict)) :
  Forall (fun p => fst p = Datetime (snd p)) l ->
  StronglySorted (keyed_le rv) l ->
  StronglySorted (by_datetime rv) (map snd l).
Proof.
  intros Hf Hs. induction Hs as [|p l Hs IH Hp]; simpl; [constructor|].
  inversion Hf as [|? ? Hp1 Hf1]; subst.
  constructor; [now apply IH|].
  apply Forall_forall. intros r Hr. apply in_map_iff in Hr.
  destruct Hr as [q [<- Hq]].
  rewrite Forall_forall in Hp, Hf1. specialize (Hp q Hq).
  unfold keyed_le in Hp. unfold by_datetime.
  now rewrite <- Hp1, <- (Hf1 q Hq).
Qed.

(** On records that all carry the field, [sorted_by] returns a sorted
    rearrangement of the collection. *)
Lemma sorted_by_datetime (rv : bool) (l : ListDict) :
  Forall has_datetime l ->
  exists out, sorted_by "Datetime" rv l = Ok out
              /\ Permutation l out
              /\ StronglySorted (by_datetime rv) out.
Proof.
  intros Hl. unfold sorted_by. rewrite (with_key_all l Hl). simpl.
  eexists. split; [reflexivity|]. split.
  - assert (E : l = map snd (map (fun r => (Datetime r, r)) l)).
    { rewrite map_map. simpl. now rewrite map_id. }
    rewrite E at 1. apply Permutation_map, sort_keyed_perm.
  - apply sorted_snd; [apply sort_keyed_fst | apply sort_keyed_sorted].
Qed.

Lemma sorted_ascending (out : ListDict) :
  StronglySorted (by_datetime false) out -> ascending out.
Proof.
  intros Hs. induction Hs as [|r l Hs IH Hr]; intros i a b Ha Hb.
  - now destruct i.
  - destruct i as [|i]; simpl in Ha, Hb.
    + injection Ha as <-. rewrite Forall_forall in Hr.
      apply (Hr b). destruct l; [easy|]. simpl in Hb. injection Hb as <-.
      now left.
    + exact (IH i a b Ha Hb).
Qed.

(* ================================================================== *)
(** ** Deduplication by [Datetime] *)

Lemma getitem_datetime (r : Dict) :
  has_datetime r -> getitem r "Datetime" = Ok (Datetime r).
Proof.
  intros H. unfold getitem. now rewrite (has_datetime_lookup r H).
Qed.

Lemma first_seen_spec (l : list Dict) :
  Forall has_datetime l ->
  forall seen,
  exists acc,
    first_seen seen l = Ok acc
    /\ Forall has_datetime acc
    /\ NoDup (map Datetime acc)
    /\ (forall r, In r acc -> mem (Datetime r) seen = false /\ first_for l r)
    /\ (forall x, In x l -> mem (Datetime x) seen = true
                            \/ exists r, In r acc /\ Datetime r = Datetime x).
Proof.
  induction 1 as [|r l Hr Hl IH]; intros seen; simpl.
  - exists []. repeat split; try constructor; easy.
  - rewrite (getitem_datetime r Hr). simpl.
    destruct (mem (Datetime r) seen) eqn:Hm.
    + destruct (IH seen) as [acc [E [Hd [Hn [Hf Hc]]]]].
      exists acc. rewrite E. repeat split; try assumption.
      * now apply Hf.
      * destruct (Hf r0 H) as [Hs [l1 [l2 [-> Hb]]]].
        exists (r :: l1), l2. split; [reflexivity|].
        intros x [<-|Hx]; [|now apply Hb].
        intros Heq. rewrite Heq in Hm. congruence.
      * intros x [<-|Hx]; [now left | now apply Hc].
    + destruct (IH (Datetime r :: seen)) as [acc [E [Hd [Hn [Hf Hc]]]]].
      exists (r :: acc). rewrite E. simpl. repeat split.
      * now constructor.
      * constructor; [|exact Hn]. intros Hin. apply in_map_iff in Hin.
        destruct Hin as [q [Hq Hin]]. destruct (Hf q Hin) as [Hs _].
        simpl in Hs. rewrite Hq, String.eqb_refl in Hs. discriminate.
      * destruct H as [<-|Hin]; [exact Hm|].
        destruct (Hf r0 Hin) as [Hs _]. simpl in Hs.
        now apply orb_false_iff in Hs.
      * destruct H as [<-|Hin].
        -- exists [], l. split; [reflexivity | easy].
        -- destruct (Hf r0 Hin) as [Hs [l1 [l2 [-> Hb]]]].
           exists (r :: l1), l2. split; [reflexivity|].
           intros x [<-|Hx]; [|now apply Hb].
           simpl in Hs. apply orb_false_iff in Hs. destruct Hs as [Hs _].
           apply String.eqb_neq in Hs. congruence.
      * intros x [<-|Hx].
        -- right. exists r. split; [now left | reflexivity].
        -- destruct (Hc x Hx) as [Hs|[q [Hq Hqd]]].
           ++ simpl in Hs. apply orb_true_iff in Hs. destruct Hs as [Hs|Hs].
              ** apply String.eqb_eq in Hs. right. exists r.
                 split; [now left | congruence].
              ** now left.
           ++ right. exists q. split; [now right | exact Hqd].
Qed.

Lemma add_trace_add (w : World) (a b : list Event) :
  add_trace (add_trace w a) b = add_trace w (a ++ b).
Proof. unfold add_trace. simpl. now rewrite <- app_assoc. Qed.

Lemma fetches_app (a b : list Event) : fetches (a ++ b) = fetches a ++ fetches b.
Proof. unfold fetches. apply flat_map_app. Qed.

Lemma written_out_app (a b : list Event) :
  written_out (a ++ b) = written_out a ++ written_out b.
Proof. unfold written_out. apply flat_map_app. Qed.

Lemma emit_run (ev : Event) (w : World) : emit ev w = (Ok tt, add_trace w [ev]).
Proof. reflexivity. Qed.

Lemma call_generator_run (vp : VantagePro2) (s t : option datetime) (w : World) :
  call_generator vp s t w
  = (Ok (_get_archives_generator vp s t), add_trace w [Fetch s t]).
Proof. reflexivity. Qed.

Lemma bind_run {A B} (m : M A) (k : A -> M B) (w w' : World) (a : A) :
  m w = (Ok a, w') -> bind m k w = k a w'.
Proof. intros H. unfold bind. now rewrite H. Qed.

Lemma lift_bind_run {A B} (r : Result A) (k : A -> M B) (w : World) :
  bind (lift r) k w = match r with Ok a => k a w | Err e => (Err e, w) end.
Proof. unfold bind, lift. now destruct r. Qed.

Lemma add_trace_nil (w : World) : add_trace w [] = w.
Proof. unfold add_trace. rewrite app_nil_r. now destruct w. Qed.

(** An update the bar accepts is recorded; one it refuses raises and leaves
    the world as it is. *)
Lemma pbar_update_run (maxval value : nat) (w : World) :
  pbar_update maxval value w
  = if Nat.leb value maxval then (Ok tt, add_trace w [PbarUpdate value])
    else (Err (ValueError "Value out of range"), w).
Proof. unfold pbar_update. now destruct (Nat.leb value maxval). Qed.

(** The loop keeps what [bar_seen] says, and only updates the bar. *)
Lemma archives_loop_bar_seen (records : list Dict) :
  forall step archives dates seen w,
    (forall x, mem x seen = mem x dates) ->
    exists res added,
      archives_loop step records archives dates w = (res, add_trace w added)
      /\ kept res
         = result_bind (bar_seen step seen records) (fun acc => Ok (archives ++ acc))
      /\ fetches added = []
      /\ written_out added = [].
Proof.
  induction records as [|r rest IH]; intros step archives dates seen w Hs.
  - exists (Ok (archives, dates)), []. cbn [archives_loop bar_seen].
    unfold ret. rewrite add_trace_nil. simpl. rewrite app_nil_r.
    repeat split.
  - cbn [archives_loop bar_seen]. unfold bind at 1. rewrite pbar_update_run.
    destruct (Nat.leb step 2600).
    + rewrite lift_bind_run.
      destruct (getitem r "Datetime") as [d|e]; cbn [result_bind].
      * rewrite Hs. destruct (mem d dates) eqn:Hm; cbn [negb].
        -- destruct (IH (S step) archives dates seen
                        (add_trace w [PbarUpdate step]) Hs)
             as [res [added [E [Hk [Hf Hw]]]]].
           exists res, (PbarUpdate step :: added). rewrite E, add_trace_add.
           repeat split; assumption.
        -- destruct (IH (S step) (archives ++ [r]) (dates ++ [d]) (d :: seen)
                        (add_trace w [PbarUpdate step]))
             as [res [added [E [Hk [Hf Hw]]]]].
           { intros x. simpl. rewrite mem_app, Hs. simpl.
             rewrite orb_false_r. apply orb_comm. }
           exists res, (PbarUpdate step :: added). rewrite E, add_trace_add.
           repeat split; try assumption. rewrite Hk.
           destruct (bar_seen (S step) (d :: seen) rest); simpl; [|reflexivity].
           now rewrite <- app_assoc.
      * exists (Err e), [PbarUpdate step]. repeat split.
    + exists (Err (ValueError "Value out of range")), [].
      rewrite add_trace_nil. repeat split.
Qed.

(** Where the bar has room for every record the loop reaches, the loop
    keeps what [first_seen] keeps. *)
Lemma bar_seen_room (records : list Dict) :
  forall step seen,
    step + processed records <= 2601 ->
    bar_seen step seen records = first_seen seen records.
Proof.
  induction records as [|r rest IH]; intros step seen Hn; [reflexivity|].
  cbn [bar_seen first_seen processed] in *. unfold getitem.
  destruct (lookup "Datetime" r) as [d|] eqn:Hd.
  - assert (Hs : Nat.leb step 2600 = true) by (apply Nat.leb_le; lia).
    rewrite Hs. cbn [result_bind].
    destruct (mem d seen); rewrite (IH (S step)) by lia; reflexivity.
  - assert (Hs : Nat.leb step 2600 = true) by (apply Nat.leb_le; lia).
    rewrite Hs. reflexivity.
Qed.

Lemma processed_le (records : list Dict) :
  processed records <= List.length records.
Proof.
  induction records as [|r rest IH]; simpl; [lia|].
  destruct (lookup "Datetime" r); lia.
Qed.

(** Past the room of the bar the loop raises, whatever the records hold. *)
Lemma bar_seen_overflow (records : list Dict) :
  forall step seen,
    Forall has_datetime records ->
    step <= 2601 -> 2601 < step + List.length records ->
    bar_seen step seen records = Err (ValueError "Value out of range").
Proof.
  induction records as [|r rest IH]; intros step seen Hy Hs Hn;
    [simpl in Hn; lia|].
  inversion Hy as [|? ? Hr Hrest]; subst. cbn [bar_seen].
  destruct (Nat.leb step 2600) eqn:Hl; [|reflexivity].
  apply Nat.leb_le in Hl. unfold getitem.
  destruct (lookup "Datetime" r) as [d|] eqn:Hd; [|now elim Hr].
  cbn [result_bind]. simpl in Hn.
  destruct (mem d seen); rewrite (IH (S step)) by (trivial; lia); reflexivity.
Qed.

Lemma fetch_outcome_room (debug : bool) (g : Generator) :
  debug = true \/ processed (yielded g) <= 2601 ->
  fetch_outcome debug g = fetch_result g.
Proof.
  intros H. unfold fetch_outcome, fetch_result.
  destruct debug; [reflexivity|]. destruct H as [H|H]; [discriminate|].
  now rewrite bar_seen_room.
Qed.

Lemma bar_room_processed (debug : bool) (records : list Dict) :
  bar_room debug (List.length records) ->
  debug = true \/ processed records <= 2601.
Proof.
  intros [H|H]; [now left | right].
  pose proof (processed_le records). lia.
Qed.

Lemma fetch_outcome_overflow (g : Generator) :
  Forall has_datetime (yielded g) -> 2601 < List.length (yielded g) ->
  fetch_outcome false g = Err (ValueError "Value out of range").
Proof.
  intros Hy Hn. unfold fetch_outcome.
  rewrite bar_seen_overflow; [reflexivity | exact Hy | lia | lia].
Qed.

(** The bar only adds an error: what the loop keeps under it is what
    [first_seen] keeps. *)
Lemma bar_seen_ok (records : list Dict) :
  forall step seen acc,
    bar_seen step seen records = Ok acc -> first_seen seen records = Ok acc.
Proof.
  induction records as [|r rest IH]; intros step seen acc E; [exact E|].
  cbn [bar_seen first_seen] in *.
  destruct (Nat.leb step 2600); [|discriminate].
  destruct (getitem r "Datetime") as [d|e]; cbn [result_bind] in *;
    [|discriminate].
  destruct (mem d seen); [now apply (IH (S step))|].
  destruct (bar_seen (S step) (d :: seen) rest) as [acc'|e] eqn:E';
    cbn [result_bind] in E; [|discriminate].
  now rewrite (IH (S step) (d :: seen) acc' E').
Qed.

Lemma fetch_outcome_ok (debug : bool) (g : Generator) (out : ListDict) :
  fetch_outcome debug g = Ok out -> fetch_result g = Ok out.
Proof.
  unfold fetch_outcome, fetch_result. destruct debug; [easy|].
  destruct (bar_seen 0 [] (yielded g)) as [acc|e] eqn:E; [|discriminate].
  now rewrite (bar_seen_ok _ _ _ _ E).
Qed.

(* ================================================================== *)
(** ** [getarchives] *)

(** A call of [getarchives] sends one request to the station, returns what
    [fetch_outcome] says, writes nothing to [sys.stdout] as a stream and
    leaves the store file and its handle alone. *)
Lemma getarchives_run (args : Args) (vp : VantagePro2) (w : World) :
  exists added,
    getarchives args vp w
    = (fetch_outcome (args_debug args)
         (_get_archives_generator vp (args_start args) (args_stop args)),
       add_trace w (Fetch (args_start args) (args_stop args) :: added))
    /\ fetches added = []
    /\ written_out added = [].
Proof.
  unfold getarchives, fetch_outcome, fetch_result.
  set (g := _get_archives_generator vp (args_start args) (args_stop args)).
  destruct (args_debug args).
  - exists []. split; [|split; reflexivity]. unfold get_archives.
    rewrite (bind_run _ _ w _ _ (call_generator_run vp _ _ w)). fold g.
    rewrite lift_bind_run.
    destruct (first_seen [] (yielded g)) as [acc|e]; simpl; [|reflexivity].
    destruct (raised g); reflexivity.
  - rewrite (bind_run _ _ w _ _ (call_generator_run vp _ _ w)). fold g.
    rewrite (bind_run _ _ _ _ _ (emit_run (PbarStart 2600) _)).
    rewrite add_trace_add.
    destruct (archives_loop_bar_seen (yielded g) 0 [] [] []
                (add_trace w ([Fetch (args_start args) (args_stop args)]
                              ++ [PbarStart 2600])))
      as [res [added [E [Hk [Hf Hw]]]]]; [reflexivity|].
    unfold bind at 1. rewrite E, add_trace_add. simpl in Hk.
    destruct res as [[archives dates]|e]; simpl in Hk.
    + destruct (bar_seen 0 [] (yielded g)) as [acc|e']; simpl in Hk;
        [|discriminate]. injection Hk as ->. simpl.
      destruct (raised g) as [e|].
      * exists (PbarStart 2600 :: added).
        split; [reflexivity | split; [exact Hf | exact Hw]].
      * rewrite (bind_run _ _ _ _ _ (emit_run PbarFinish _)), add_trace_add.
        assert (Hp : forall line,
                   bind (print line)
                        (fun _ => lift (sorted_by "Datetime" false acc))
                        (add_trace w (([Fetch (args_start args) (args_stop args)]
                                       ++ [PbarStart 2600] ++ added)
                                      ++ [PbarFinish]))
                   = (sorted_by "Datetime" false acc,
                      add_trace w (Fetch (args_start args) (args_stop args)
                                   :: PbarStart 2600
                                   :: added ++ [PbarFinish; Print line]))).
        { intros line. unfold print.
          rewrite (bind_run _ _ _ _ _ (emit_run (Print line) _)), add_trace_add.
          unfold lift. f_equal. f_equal. simpl.
          now rewrite <- !app_assoc. }
        assert (Hq : forall line,
                   fetches (PbarStart 2600 :: added ++ [PbarFinish; Print line])
                   = []
                   /\ written_out
                        (PbarStart 2600 :: added ++ [PbarFinish; Print line])
                      = []).
        { intros line. simpl.
          now rewrite fetches_app, written_out_app, Hf, Hw. }
        destruct (List.length acc) as [|[|n]]; rewrite Hp; eexists;
          (split; [reflexivity | apply Hq]).
    + destruct (bar_seen 0 [] (yielded g)) as [acc|e']; simpl in Hk;
        [discriminate|]. injection Hk as ->. simpl.
      exists (PbarStart 2600 :: added).
      split; [reflexivity | split; [exact Hf | exact Hw]].
Qed.

(* ================================================================== *)
(** ** [update_cmd] *)

Lemma content_mk (c : string) (o : bool) (p : nat) (t : list Event) :
  content (mkWorld (Some c) o p t) = c.
Proof. reflexivity. Qed.

Section Update.

Variable strptime : string -> string -> option datetime.
Variable static_schema : list string.

(** One run of [update_cmd], in full: the outcome and the appended text are
    those of [update_plan], the handle is closed, and the only request sent
    to the station is the planned one. *)
Lemma update_cmd_run (args : Args) (vp : VantagePro2) (w : World) :
  let plan := update_plan strptime static_schema args vp (content w) in
  exists pos added,
    update_cmd strptime static_schema args vp w
    = (done plan,
       mkWorld (Some (content w ++ appended plan)%string) false pos
               (trace w ++ added))
    /\ fetches added = planned_request strptime args (content w).
Proof.
  intros plan. subst plan.
  unfold update_cmd, update_plan, planned_request.
  unfold bind at 1. unfold touch at 1. unfold with_open, open_rplus. simpl.
  unfold csv_to_dict. unfold bind at 1. unfold read_all at 1. simpl.
  rewrite !content_mk.
  destruct (csv_text_to_dict strptime (args_delim args) (content w)) as [db|e];
    simpl.
  2:{ exists (String.length (content w)), []. unfold close. simpl.
      now rewrite append_nil_r, app_nil_r. }
  unfold resume_point.
  destruct (Nat.ltb 0 (List.length db)); simpl.
  - rewrite lift_bind_run.
    destruct (sorted_by "Datetime" true db) as [sorted|e]; simpl.
    2:{ exists (String.length (content w)), []. unfold close. simpl.
        now rewrite append_nil_r, app_nil_r. }
    rewrite lift_bind_run.
    destruct (first_item sorted) as [r0|e]; simpl.
    2:{ exists (String.length (content w)), []. unfold close. simpl.
        now rewrite append_nil_r, app_nil_r. }
    rewrite lift_bind_run.
    destruct (getitem r0 "Datetime") as [text|e]; simpl.
    2:{ exists (String.length (content w)), []. unfold close. simpl.
        now rewrite append_nil_r, app_nil_r. }
    rewrite lift_bind_run.
    destruct (parse_timestamp strptime text) as [t|e]; simpl.
    2:{ exists (String.length (content w)), []. unfold close. simpl.
        now rewrite append_nil_r, app_nil_r. }
    unfold bind at 1.
    match goal with
    | |- context [getarchives ?a vp ?w0] =>
        destruct (getarchives_run a vp w0) as [added [E [Hf _]]]
    end.
    simpl in E. rewrite E.
    destruct (fetch_outcome (args_debug args)
                (_get_archives_generator vp (Some t) None))
      as [items|e]; simpl.
    2:{ eexists _, _. unfold close. simpl. rewrite append_nil_r.
        split; [reflexivity|]. simpl. now rewrite Hf. }
    rewrite lift_bind_run.
    destruct (to_csv static_schema (args_delim args) false items) as [out|e];
      simpl.
    2:{ eexists _, _. unfold close. simpl. rewrite append_nil_r.
        split; [reflexivity|]. simpl. now rewrite Hf. }
    eexists _, _. unfold close, write, content. simpl.
    rewrite string_take_length, string_drop_past, append_nil_r.
    split; [reflexivity|]. simpl. now rewrite Hf.
  - unfold bind at 1.
    match goal with
    | |- context [getarchives ?a vp ?w0] =>
        destruct (getarchives_run a vp w0) as [added [E [Hf _]]]
    end.
    simpl in E. rewrite E.
    destruct (fetch_outcome (args_debug args)
                (_get_archives_generator vp None None))
      as [items|e]; simpl.
    2:{ eexists _, _. unfold close. simpl. rewrite append_nil_r.
        split; [reflexivity|]. simpl. now rewrite Hf. }
    rewrite lift_bind_run.
    destruct (to_csv static_schema (args_delim args) true items) as [out|e];
      simpl.
    2:{ eexists _, _. unfold close. simpl. rewrite append_nil_r.
        split; [reflexivity|]. simpl. now rewrite Hf. }
    eexists _, _. unfold close, write, content. simpl.
    rewrite string_take_length, string_drop_past, append_nil_r.
    split; [reflexivity|]. simpl. now rewrite Hf.
Qed.

End Update.

(* ================================================================== *)
(** ** Reading back what the writer wrote *)

Section Reader.

Local Arguments Ascii.eqb : simpl never.

Variable d : ascii.
Hypothesis d_not_quote : d <> dquote.
Hypothesis d_not_LF : d <> LF.

Lemma pushs_some (f g : string) (row : list string) (rows : Rows) :
  pushs f (Some ((g :: row) :: rows)) = Some (((f ++ g)%string :: row) :: rows).
Proof. induction f as [|c f IH]; simpl; [reflexivity | now rewrite IH]. Qed.

Lemma pushs_none (f : string) : pushs f None = None.
Proof. induction f as [|c f IH]; simpl; [reflexivity | now rewrite IH]. Qed.

Lemma eqb_d_quote : Ascii.eqb d dquote = false.
Proof. now apply Ascii.eqb_neq. Qed.

Lemma eqb_LF_d : Ascii.eqb LF d = false.
Proof. apply Ascii.eqb_neq. congruence. Qed.

Lemma scan_after_field (st : cstate) (rest : string) :
  st <> Quoted -> ends_field d rest ->
  csv_scan d st rest = csv_scan d Unquoted rest.
Proof.
  intros Hst [c [r [-> [->| ->]]]]; destruct st; simpl; try congruence;
    try rewrite eqb_d_quote; try rewrite Ascii.eqb_refl; try reflexivity;
    rewrite eqb_LF_d; reflexivity.
Qed.

Lemma scan_plain (f rest : string) :
  string_mem d f = false -> string_mem LF f = false ->
  csv_scan d Unquoted (f ++ rest) = pushs f (csv_scan d Unquoted rest).
Proof.
  induction f as [|c f IH]; simpl; [reflexivity|]. intros Hd Hl.
  apply orb_false_iff in Hd, Hl. destruct Hd as [Hd Hd'], Hl as [Hl Hl'].
  rewrite Ascii.eqb_sym in Hd. rewrite Ascii.eqb_sym in Hl.
  rewrite Hd, Hl. now rewrite IH.
Qed.

Lemma scan_escaped (f rest : string) :
  csv_scan d Quoted (escape f ++ String dquote rest)
  = pushs f (csv_scan d QuoteEnd rest).
Proof.
  induction f as [|c f IH]; simpl.
  - reflexivity.
  - destruct (Ascii.eqb c dquote) eqn:E; simpl.
    + rewrite ?Ascii.eqb_refl. rewrite IH.
      apply Ascii.eqb_eq in E. now subst.
    + rewrite E. now rewrite IH.
Qed.

(** A written field is read back, character for character. *)
Lemma scan_field (st : cstate) (f rest : string) :
  st = RowStart \/ st = FieldStart -> ends_field d rest ->
  csv_scan d st (quote_field d f ++ rest) = pushs f (csv_scan d Unquoted rest).
Proof.
  intros Hst Hrest. unfold quote_field.
  destruct (needs_quote d f) eqn:Hq.
  - assert (E : csv_scan d st (String dquote (escape f ++ String dquote "") ++ rest)
              = csv_scan d Quoted (escape f ++ String dquote rest)).
    { simpl. rewrite append_assoc. simpl.
      destruct Hst as [-> | ->]; reflexivity. }
    rewrite E, scan_escaped. f_equal. apply scan_after_field; easy.
  - unfold needs_quote in Hq. apply orb_false_iff in Hq.
    destruct Hq as [Hq Hl]. apply orb_false_iff in Hq. destruct Hq as [Hd Hq].
    destruct f as [|c f].
    + simpl. apply scan_after_field; [|exact Hrest].
      destruct Hst as [-> | ->]; congruence.
    + rewrite <- (scan_plain (String c f) rest Hd Hl).
      simpl in Hd, Hq, Hl. apply orb_false_iff in Hd, Hq, Hl.
      destruct Hd as [Hd _], Hq as [Hq _], Hl as [Hl _].
      rewrite Ascii.eqb_sym in Hd, Hq, Hl.
      destruct Hst as [-> | ->]; simpl; now rewrite Hd, Hq, Hl.
Qed.

Lemma csv_row_cons (f g : string) (fs : list string) (rest : string) :
  (csv_row d (f :: g :: fs) ++ rest)%string
  = (quote_field d f ++ String d (csv_row d (g :: fs) ++ rest))%string.
Proof.
  unfold csv_row. simpl map. cbn [join_fields].
  rewrite !append_assoc. simpl. now rewrite ?append_assoc.
Qed.

Lemma csv_row_one (f rest : string) :
  (csv_row d [f] ++ rest)%string = (quote_field d f ++ String LF rest)%string.
Proof. unfold csv_row. simpl. now rewrite append_assoc. Qed.

(** A written row is read back as that row. *)
Lemma scan_row (fs : list string) :
  forall st f rest,
    st = RowStart \/ st = FieldStart ->
    csv_scan d st (csv_row d (f :: fs) ++ rest)
    = prepend (f :: fs) (csv_scan d RowStart rest).
Proof.
  induction fs as [|g fs IH]; intros st f rest Hst.
  - rewrite csv_row_one, scan_field; [|exact Hst|].
    2:{ exists LF, rest. split; [reflexivity | now right]. }
    simpl. rewrite eqb_LF_d, ?Ascii.eqb_refl.
    destruct (csv_scan d RowStart rest) as [rows|]; simpl.
    + now rewrite pushs_some, append_nil_r.
    + apply pushs_none.
  - rewrite csv_row_cons, scan_field; [|exact Hst|].
    2:{ eexists d, _. split; [reflexivity | now left]. }
    simpl. rewrite Ascii.eqb_refl, (IH FieldStart g rest); [|now right].
    destruct (csv_scan d RowStart rest) as [rows|]; simpl.
    + now rewrite pushs_some, append_nil_r.
    + apply pushs_none.
Qed.

Lemma scan_rows (rows : Rows) (rest : string) :
  Forall (fun row => row <> []) rows ->
  csv_scan d RowStart (string_concat (map (csv_row d) rows) ++ rest)
  = match csv_scan d RowStart rest with
    | Some more => Some (rows ++ more)
    | None => None
    end.
Proof.
  induction 1 as [|row rows Hrow _ IH]; simpl.
  - now destruct (csv_scan d RowStart rest).
  - destruct row as [|f fs]; [congruence|].
    rewrite append_assoc, scan_row; [|now left]. rewrite IH.
    now destruct (csv_scan d RowStart rest).
Qed.

End Reader.

(* ================================================================== *)
(** ** The codec *)

Lemma rows_text_app (d : ascii) (a b : Rows) :
  rows_text d (a ++ b) = (rows_text d a ++ rows_text d b)%string.
Proof.
  unfold rows_text. induction a as [|r a IH]; simpl; [reflexivity|].
  now rewrite IH, append_assoc.
Qed.

Lemma lookup_app_fresh (k v : string) (r1 r2 : Dict) :
  ~ In k (keys r1) -> lookup k (r1 ++ (k, v) :: r2) = Some v.
Proof.
  induction r1 as [|[k' v'] r1 IH]; simpl; intros H.
  - now rewrite String.eqb_refl.
  - destruct (String.eqb k k') eqn:E.
    + apply String.eqb_eq in E. exfalso. apply H. left. now subst.
    + apply IH. intros Hin. apply H. now right.
Qed.

Lemma lookup_In (k : string) (r : Dict) : In k (keys r) -> lookup k r <> None.
Proof.
  induction r as [|[k' v'] r IH]; simpl; [easy|]. intros [->|H].
  - now rewrite String.eqb_refl.
  - destruct (String.eqb k k'); [easy | now apply IH].
Qed.

Lemma fields_in_order (r2 : Dict) :
  forall r1, NoDup (keys (r1 ++ r2)) ->
             result_map (field_of (r1 ++ r2)) (keys r2) = Ok (values r2).
Proof.
  induction r2 as [|[k v] r2 IH]; intros r1 Hn; simpl; [reflexivity|].
  unfold field_of at 1. rewrite lookup_app_fresh.
  - simpl. specialize (IH (r1 ++ [(k, v)])). rewrite <- app_assoc in IH.
    simpl in IH. now rewrite (IH Hn).
  - unfold keys in *. rewrite map_app in Hn. simpl in Hn.
    apply NoDup_remove_2 in Hn. intros Hin. apply Hn, in_or_app. now left.
Qed.

Lemma no_stray_key (hdr : list string) (ks : list string) :
  incl ks hdr -> find (fun k => negb (mem k hdr)) ks = None.
Proof.
  induction ks as [|k ks IH]; simpl; [reflexivity|]. intros H.
  assert (Hk : mem k hdr = true) by (apply mem_In, H; now left).
  rewrite Hk. simpl. apply IH. intros x Hx. apply H. now right.
Qed.

Lemma row_values_keys (r : Dict) :
  NoDup (keys r) -> row_values (keys r) r = Ok (values r).
Proof.
  intros Hn. unfold row_values.
  rewrite no_stray_key by apply incl_refl.
  exact (fields_in_order r [] Hn).
Qed.

Lemma combine_keys_values (r : Dict) : combine (keys r) (values r) = r.
Proof.
  induction r as [|[k v] r IH]; simpl; [reflexivity | now rewrite IH].
Qed.

Section Codec.

Variable strptime : string -> string -> option datetime.
Variable static_schema : list string.
Variable d : ascii.
Hypothesis d_not_quote : d <> dquote.
Hypothesis d_not_LF : d <> LF.

Lemma well_formed_has_datetime (hdr : list string) (r : Dict) :
  In "Datetime" hdr -> well_formed strptime hdr r -> has_datetime r.
Proof.
  intros Hin [Hk _]. apply lookup_In. now rewrite Hk.
Qed.

Lemma to_csv_rows (hdr : list string) (l : ListDict) :
  NoDup hdr -> Forall (well_formed strptime hdr) l ->
  result_map (row_values hdr) l = Ok (map values l).
Proof.
  intros Hn. induction 1 as [|r l [Hk _] _ IH]; simpl; [reflexivity|].
  rewrite <- Hk at 1. rewrite row_values_keys by now rewrite Hk.
  simpl. now rewrite IH.
Qed.

Lemma row_to_record_values (hdr : list string) (r : Dict) :
  In "Datetime" hdr -> well_formed strptime hdr r ->
  row_to_record strptime hdr (values r) = Ok r.
Proof.
  intros Hin Hw. pose proof (well_formed_has_datetime hdr r Hin Hw) as Hd.
  destruct Hw as [Hk [t Ht]]. unfold row_to_record.
  rewrite <- Hk. unfold keys, values. rewrite !length_map, Nat.eqb_refl.
  fold (keys r) (values r). rewrite combine_keys_values.
  now rewrite (has_datetime_lookup r Hd), Ht.
Qed.

Lemma records_of_rows (hdr : list string) (l : ListDict) :
  In "Datetime" hdr -> Forall (well_formed strptime hdr) l ->
  result_map (row_to_record strptime hdr) (map values l) = Ok l.
Proof.
  intros Hin. induction 1 as [|r l Hr _ IH]; simpl; [reflexivity|].
  now rewrite (row_to_record_values hdr r Hin Hr), IH.
Qed.

Lemma values_not_nil (hdr : list string) (l : ListDict) :
  In "Datetime" hdr -> Forall (well_formed strptime hdr) l ->
  Forall (fun row => row <> []) (map values l).
Proof.
  intros Hin Hl. apply Forall_forall. intros row Hrow.
  apply in_map_iff in Hrow. destruct Hrow as [r [<- Hr]].
  rewrite Forall_forall in Hl. destruct (Hl r Hr) as [Hk _].
  unfold keys, values in *. destruct r; simpl in *; [|easy].
  now subst hdr.
Qed.

(** A store written for a consistent collection loads as that collection. *)
Lemma load_store_text (hdr : list string) (l : ListDict) :
  consistent strptime hdr l ->
  csv_text_to_dict strptime d (store_text d hdr l) = Ok l.
Proof.
  intros [Hn [Hin Hl]]. unfold csv_text_to_dict, csv_rows, store_text.
  assert (E : (csv_row d hdr ++ rows_text d (map values l))%string
              = (string_concat (map (csv_row d) (hdr :: map values l)) ++ "")%string).
  { simpl. now rewrite append_nil_r. }
  rewrite E, scan_rows; try assumption.
  - simpl. rewrite app_nil_r.
    assert (Hm : mem "Datetime" hdr = true) by now apply mem_In.
    rewrite Hm. now apply records_of_rows.
  - constructor; [|now apply (values_not_nil hdr)].
    intros ->. destruct Hin.
Qed.

(** A schema that names a field has its header row. *)
Lemma header_row_schema (l : ListDict) :
  schema_of static_schema l <> [] ->
  header_row static_schema d l = csv_row d (schema_of static_schema l).
Proof.
  unfold header_row, schema_of. destruct l as [|r l]; [|reflexivity].
  destruct static_schema; [now intros H | reflexivity].
Qed.

Lemma to_csv_consistent (header : bool) (hdr : list string) (l : ListDict) :
  schema_of static_schema l = hdr -> consistent strptime hdr l ->
  to_csv static_schema d header l
  = Ok ((if header then csv_row d hdr else "") ++ rows_text d (map values l))%string.
Proof.
  intros Hs [Hn [Hin Hl]]. unfold to_csv.
  rewrite header_row_schema by (rewrite Hs; intros E; now rewrite E in Hin).
  rewrite Hs. now rewrite (to_csv_rows hdr l Hn Hl).
Qed.

End Codec.

(* ================================================================== *)
(** ** The archive fetch driver *)

Lemma fetch_result_spec (g : Generator) :
  raised g = None ->
  Forall has_datetime (yielded g) ->
  exists acc out,
    first_seen [] (yielded g) = Ok acc
    /\ fetch_result g = Ok out
    /\ Permutation acc out
    /\ StronglySorted (by_datetime false) out
    /\ NoDup (map Datetime out)
    /\ (forall r, In r out -> first_for (yielded g) r)
    /\ (forall x, In x (yielded g) ->
                  exists r, In r out /\ Datetime r = Datetime x).
Proof.
  intros Hr Hy. destruct (first_seen_spec (yielded g) Hy [])
    as [acc [E [Hd [Hn [Hf Hc]]]]].
  destruct (sorted_by_datetime false acc Hd) as [out [Es [Hp Hs]]].
  exists acc, out. unfold fetch_result. rewrite E, Hr. simpl.
  repeat split; try assumption.
  - eapply Permutation_NoDup; [apply Permutation_map, Hp | exact Hn].
  - intros r Hin. apply Hf. eapply Permutation_in; [|exact Hin].
    now apply Permutation_sym.
  - intros x Hx. destruct (Hc x Hx) as [Hm | [r [Hin Heq]]]; [discriminate|].
    exists r. split; [|exact Heq]. eapply Permutation_in; eassumption.
Qed.

(** Within the room of the bar, and in every case with [debug],
    [getarchives] returns what [fetch_result] says. *)
Lemma getarchives_room (args : Args) (vp : VantagePro2) (w : World) :
  let g := _get_archives_generator vp (args_start args) (args_stop args) in
  args_debug args = true \/ processed (yielded g) <= 2601 ->
  exists added,
    getarchives args vp w
    = (fetch_result g,
       add_trace w (Fetch (args_start args) (args_stop args) :: added))
    /\ fetches added = []
    /\ written_out added = [].
Proof.
  intros g Hroom. destruct (getarchives_run args vp w) as [added [E H]].
  fold g in E. rewrite (fetch_outcome_room _ g Hroom) in E.
  now exists added.
Qed.

(** Past the room of the bar, [getarchives] without [debug] raises the
    [ValueError] of the bar. *)
Lemma getarchives_overflow (args : Args) (vp : VantagePro2) (w : World) :
  let g := _get_archives_generator vp (args_start args) (args_stop args) in
  args_debug args = false ->
  Forall has_datetime (yielded g) -> 2601 < List.length (yielded g) ->
  fst (getarchives args vp w) = Err (ValueError "Value out of range").
Proof.
  intros g Hd Hy Hn. destruct (getarchives_run args vp w) as [added [E _]].
  fold g in E. rewrite E, Hd. cbn [fst].
  now apply fetch_outcome_overflow.
Qed.

(** C2: for a sequence of records the generator yields, [getarchives]
    returns the records that are first for their [Datetime], sorted
    ascending by [Datetime]: no two returned records share a [Datetime],
    every adjacent pair is in order whatever the order of the source, the
    record kept for a [Datetime] is the first one yielded, every yielded
    [Datetime] is represented, and an empty sequence gives an empty
    collection, not an error.  This holds for every sequence with [debug],
    and without it for a sequence of at most 2601 records: on a longer one
    [pbar.update(2601)] raises [ValueError] under [maxval=2600] and no
    collection is returned. *)
Theorem getarchives_first_seen_sorted (args : Args) (vp : VantagePro2) (w : World) :
  let g := _get_archives_generator vp (args_start args) (args_stop args) in
  raised g = None ->
  Forall has_datetime (yielded g) ->
  (bar_room (args_debug args) (List.length (yielded g)) ->
   exists out w',
     getarchives args vp w = (Ok out, w')
     /\ NoDup (map Datetime out)
     /\ ascending out
     /\ (forall r, In r out -> first_for (yielded g) r)
     /\ (forall x, In x (yielded g) ->
                   exists r, In r out /\ Datetime r = Datetime x)
     /\ (yielded g = [] -> out = []))
  /\ (args_debug args = false -> 2601 < List.length (yielded g) ->
      fst (getarchives args vp w) = Err (ValueError "Value out of range")).
Proof.
  intros g Hr Hy. split.
  - intros Hroom.
    destruct (fetch_result_spec g Hr Hy)
      as [acc [out [Ea [E [Hp [Hs [Hn [Hf Hc]]]]]]]].
    destruct (getarchives_room args vp w (bar_room_processed _ _ Hroom))
      as [added [Erun _]].
    fold g in Erun. rewrite E in Erun.
    exists out. eexists. split; [exact Erun|].
    repeat split; try assumption.
    + now apply sorted_ascending.
    + intros Hnil. rewrite Hnil in Ea. simpl in Ea. injection Ea as <-.
      now apply Permutation_nil.
  - intros Hd Hn. now apply getarchives_overflow.
Qed.

(** C9: the archive fetch with and without the progress bar.  The debug
    path, which returns [vp.get_archives(start, stop)], and the path that
    consumes the generator while updating the bar send the same request and
    leave the store file alike; they give the same outcome, collection or
    exception, as long as the loop reaches at most 2601 records.  On a
    longer sequence of records the bar raises [ValueError] where the debug
    path returns the collection. *)
Theorem getarchives_progress_agnostic (args : Args) (vp : VantagePro2) (w : World) :
  let quiet := getarchives (set_debug true args) vp w in
  let bar := getarchives (set_debug false args) vp w in
  let g := _get_archives_generator vp (args_start args) (args_stop args) in
  file_db (snd quiet) = file_db (snd bar)
  /\ fetches (trace (snd quiet)) = fetches (trace (snd bar))
  /\ (processed (yielded g) <= 2601 -> fst quiet = fst bar)
  /\ (raised g = None -> Forall has_datetime (yielded g) ->
      2601 < List.length (yielded g) ->
      (exists out, fst quiet = Ok out)
      /\ fst bar = Err (ValueError "Value out of range")).
Proof.
  intros quiet bar g. subst quiet bar.
  destruct (getarchives_run (set_debug true args) vp w) as [a1 [E1 [F1 _]]].
  destruct (getarchives_run (set_debug false args) vp w) as [a2 [E2 [F2 _]]].
  rewrite E1, E2. cbn [fst snd set_debug args_debug args_start args_stop].
  fold g. split; [reflexivity|]. split; [|split].
  - unfold add_trace. cbn [trace]. rewrite !fetches_app. simpl.
    now rewrite F1, F2.
  - intros Hp. rewrite (fetch_outcome_room false g); [reflexivity | now right].
  - intros Hr Hy Hn. split.
    + destruct (fetch_result_spec g Hr Hy) as [acc [out [_ [E _]]]].
      exists out. exact E.
    + now apply fetch_outcome_overflow.
Qed.

(* ================================================================== *)
(** ** The resume point *)

Lemma result_map_Forall {A B} (f : A -> Result B) (P : B -> Prop) :
  (forall a b, f a = Ok b -> P b) ->
  forall l bs, result_map f l = Ok bs -> Forall P bs.
Proof.
  intros Hf. induction l as [|a l IH]; simpl; intros bs E.
  - injection E as <-. constructor.
  - destruct (f a) as [b|e] eqn:Ea; simpl in E; [|discriminate].
    destruct (result_map f l) as [bs'|e]; simpl in E; [|discriminate].
    injection E as <-. constructor; [now apply (Hf a) | now apply IH].
Qed.

Section Merge.

Variable strptime : string -> string -> option datetime.
Variable static_schema : list string.
Variable from_url : string -> nat -> Result VantagePro2.

Lemma row_to_record_parses (hdr row : list string) (r : Dict) :
  row_to_record strptime hdr row = Ok r -> parses strptime r.
Proof.
  unfold row_to_record.
  destruct (Nat.eqb (List.length row) (List.length hdr)); [|discriminate].
  destruct (lookup "Datetime" (combine hdr row)) as [text|] eqn:El;
    [|discriminate].
  destruct (strptime text format_seconds) as [t|] eqn:Et; [|discriminate].
  intros E. injection E as <-. unfold parses, has_datetime, Datetime.
  rewrite El. split; [discriminate | now exists t].
Qed.

(** Every record of a loaded store carries a timestamp that parses. *)
Lemma loaded_records_parse (d : ascii) (c : string) (db : ListDict) :
  csv_text_to_dict strptime d c = Ok db -> Forall (parses strptime) db.
Proof.
  unfold csv_text_to_dict. destruct (csv_rows d c) as [[|hdr rows]|];
    [intros E; injection E as <-; constructor | | discriminate].
  destruct (mem "Datetime" hdr); [|discriminate].
  apply result_map_Forall. apply row_to_record_parses.
Qed.

(** On a store that holds a record, the resume point is the parsed
    timestamp of the head of the store sorted by [Datetime], newest first. *)
Lemma resume_point_newest (db : ListDict) :
  db <> [] -> Forall (parses strptime) db ->
  exists r0 rest t,
    sorted_by "Datetime" true db = Ok (r0 :: rest)
    /\ newest db r0
    /\ lookup "Datetime" r0 = Some (Datetime r0)
    /\ strptime (Datetime r0) format_seconds = Some t
    /\ resume_point strptime db = Ok (Some t).
Proof.
  intros Hne Hp.
  assert (Hd : Forall has_datetime db).
  { eapply Forall_impl; [|exact Hp]. now intros r [H _]. }
  destruct (sorted_by_datetime true db Hd) as [out [Es [Hperm Hs]]].
  destruct out as [|r0 rest].
  { apply Permutation_sym, Permutation_nil in Hperm. contradiction. }
  assert (Hin : In r0 db).
  { eapply Permutation_in; [apply Permutation_sym, Hperm | now left]. }
  rewrite Forall_forall in Hp. destruct (Hp r0 Hin) as [Hh [t Ht]].
  exists r0, rest, t. split; [exact Es|]. split.
  - split; [exact Hin|]. intros r Hr.
    assert (Hr' : In r (r0 :: rest)) by (eapply Permutation_in; eassumption).
    destruct Hr' as [<-|Hr']; [apply string_leb_refl|].
    inversion Hs as [|? ? _ Hall]; subst. rewrite Forall_forall in Hall.
    exact (Hall r Hr').
  - split; [now apply has_datetime_lookup|]. split; [exact Ht|].
    unfold resume_point. destruct db as [|r l]; [contradiction|]. simpl.
    rewrite Es. simpl. rewrite (getitem_datetime r0 Hh). simpl.
    unfold parse_timestamp. now rewrite Ht.
Qed.

(** C3: for every loaded store, if it is empty the station is asked with no
    lower bound; otherwise the store is sorted by [Datetime] descending, the
    [Datetime] of its first record is parsed with the format
    [%Y-%m-%d %H:%M:%S], and that timestamp is the lower bound of the one
    request [update_cmd] sends, which has no upper bound. *)
Theorem update_cmd_resume_point (args : Args) (vp : VantagePro2) (w : World)
        (db : ListDict) :
  csv_text_to_dict strptime (args_delim args) (content w) = Ok db ->
  let w' := snd (update_cmd strptime static_schema args vp w) in
  match db with
  | [] => fetches (trace w') = fetches (trace w) ++ [(None, None)]
  | _ :: _ =>
      exists r0 rest t,
        sorted_by "Datetime" true db = Ok (r0 :: rest)
        /\ newest db r0
        /\ lookup "Datetime" r0 = Some (Datetime r0)
        /\ strptime (Datetime r0) format_seconds = Some t
        /\ fetches (trace w') = fetches (trace w) ++ [(Some t, None)]
  end.
Proof.
  intros Hdb w'. subst w'.
  destruct (update_cmd_run strptime static_schema args vp w)
    as [pos [added [E Hf]]].
  rewrite E. simpl. rewrite fetches_app, Hf. unfold planned_request.
  rewrite Hdb. simpl. destruct db as [|r l]; [reflexivity|].
  destruct (resume_point_newest (r :: l))
    as [r0 [rest [t [Es [Hn [Hl [Ht Hr]]]]]]];
    [discriminate | exact (loaded_records_parse _ _ _ Hdb) |].
  exists r0, rest, t. rewrite Hr. repeat split; try assumption.
  - now destruct Hn.
  - now destruct Hn.
Qed.

(** *** Appending, with or without a header *)

Lemma is_empty_length (db : ListDict) :
  negb (Nat.ltb 0 (List.length db)) = is_empty db.
Proof. now destruct db. Qed.

Lemma to_csv_inv (d : ascii) (header : bool) (items : ListDict) (text : string) :
  to_csv static_schema d header items = Ok text ->
  exists rows,
    result_map (row_values (schema_of static_schema items)) items = Ok rows
    /\ text = ((if header then header_row static_schema d items else "")
               ++ rows_text d rows)%string.
Proof.
  unfold to_csv.
  destruct (result_map (row_values (schema_of static_schema items)) items)
    as [rows|e]; simpl; [|discriminate].
  intros E. injection E as <-. now exists rows.
Qed.

(** C5: every pass of [update_cmd] only appends to the store: the text the
    file held before the pass is still there, unchanged and in place, as a
    prefix of the file after the pass, whatever the pass returns; new rows
    are written after it and the file is never rewritten. *)
Theorem update_cmd_append_only (args : Args) (vp : VantagePro2) (w : World) :
  exists suffix,
    file_db (snd (update_cmd strptime static_schema args vp w))
    = Some (content w ++ suffix)%string.
Proof.
  destruct (update_cmd_run strptime static_schema args vp w)
    as [pos [added [E _]]].
  rewrite E. simpl. eexists. reflexivity.
Qed.

Lemma NoDup_app_apart {A} (l1 l2 : list A) (a : A) :
  NoDup (l1 ++ l2) -> In a l1 -> In a l2 -> False.
Proof.
  induction l1 as [|b l1 IH]; simpl; [easy|]. intros Hn [->|H1] H2.
  - inversion Hn as [|? ? Hnot _]; subst. apply Hnot, in_or_app. now right.
  - inversion Hn; subst. now apply IH.
Qed.

Lemma first_for_In (l : list Dict) (r : Dict) : first_for l r -> In r l.
Proof. intros [l1 [l2 [-> _]]]. apply in_elt. Qed.

(** What [to_csv] writes for records that fit one schema: the header row,
    if asked for, and a row of values for each record. *)
Lemma to_csv_well_formed (d : ascii) (header : bool) (hdr : list string)
      (l : ListDict) :
  NoDup hdr -> Forall (well_formed strptime hdr) l ->
  to_csv static_schema d header l
  = Ok ((if header then header_row static_schema d l else "")
        ++ rows_text d (map values l))%string.
Proof.
  intros Hn Hl. unfold to_csv. destruct l as [|r l]; [reflexivity|].
  assert (Hs : schema_of static_schema (r :: l) = hdr).
  { inversion Hl as [|? ? [Hk _] _]; subst. reflexivity. }
  rewrite Hs. now rewrite (to_csv_rows strptime hdr (r :: l) Hn Hl).
Qed.

Lemma to_csv_no_header (d : ascii) (hdr : list string) (l : ListDict) :
  NoDup hdr -> Forall (well_formed strptime hdr) l ->
  to_csv static_schema d false l = Ok (rows_text d (map values l)).
Proof. intros Hn Hl. now rewrite (to_csv_well_formed d false hdr l Hn Hl). Qed.



(** A pass of [update_cmd] whose fetch goes through: it returns, and the
    store file is its old text followed by the batch, with the header row
    first when the store had no record. *)
Lemma update_cmd_goes_through (args : Args) (vp : VantagePro2) (w : World)
      (db : ListDict) (hdr : list string) (start : option datetime) :
  let d := args_delim args in
  let g := _get_archives_generator vp start None in
  csv_text_to_dict strptime d (content w) = Ok db ->
  resume_point strptime db = Ok start ->
  NoDup hdr -> In "Datetime" hdr ->
  goes_through strptime hdr (args_debug args) g ->
  exists items pos added,
    fetch_result g = Ok items
    /\ Forall (well_formed strptime hdr) items
    /\ NoDup (map Datetime items)
    /\ (forall r, In r items -> first_for (yielded g) r)
    /\ (forall x, In x (yielded g) ->
                  exists r, In r items /\ Datetime r = Datetime x)
    /\ update_cmd strptime static_schema args vp w
       = (Ok tt,
          mkWorld (Some (content w
                         ++ (if is_empty db
                             then header_row static_schema d items else "")
                         ++ rows_text d (map values items))%string)
                  false pos (trace w ++ added))
    /\ fetches added = [(start, None)].
Proof.
  intros d g Hdb Hs Hn Hin [Hraise [Hy Hroom]].
  assert (Hyd : Forall has_datetime (yielded g)).
  { eapply Forall_impl; [|exact Hy]. intros r.
    now apply (well_formed_has_datetime strptime hdr). }
  destruct (fetch_result_spec g Hraise Hyd)
    as [acc [items [_ [Ef [_ [_ [Hnd [Hfirst Hcover]]]]]]]].
  assert (Hwf : Forall (well_formed strptime hdr) items).
  { apply Forall_forall. intros r Hr0. rewrite Forall_forall in Hy.
    apply Hy, first_for_In. now apply Hfirst. }
  destruct (update_cmd_run strptime static_schema args vp w)
    as [pos [added [E Hf]]].
  assert (Ep : update_plan strptime static_schema args vp (content w)
               = Ok ((if is_empty db then header_row static_schema d items else "")
                     ++ rows_text d (map values items))%string).
  { unfold update_plan. fold d. rewrite Hdb. cbn [result_bind]. rewrite Hs.
    cbn [result_bind]. fold g.
    rewrite (fetch_outcome_room _ g (bar_room_processed _ _ Hroom)), Ef.
    cbn [result_bind]. rewrite is_empty_length.
    now apply (to_csv_well_formed d (is_empty db) hdr). }
  assert (Hreq : planned_request strptime args (content w) = [(start, None)]).
  { unfold planned_request. fold d. rewrite Hdb. cbn [result_bind].
    now rewrite Hs. }
  rewrite Ep in E. cbn [done appended] in E. rewrite Hreq in Hf.
  exists items, pos, added. repeat split; assumption.
Qed.


(** *** A store with no record *)






(** *** A run that fails *)

Lemma content_add_trace (w : World) (l : list Event) :
  content (add_trace w l) = content w.
Proof. reflexivity. Qed.

(** C8, as the code has it: every error raised during a run of the update
    command aborts the run, and the store file keeps the text it had.
    [update_cmd] passes the error of the failing step up as it is and closes
    its handle; [main] lets it through unchanged in debug mode and otherwise
    catches it and exits through [parser.error] with the text of the error
    and status 2. *)
Theorem failed_update_aborts (args : Args) (w w1 : World) (e : Error) :
  (vp <- lift (from_url (args_url args) (args_timeout args)) ;;
   update_cmd strptime static_schema args vp) w = (Err e, w1) ->
  let out := main from_url args (Some (update_cmd strptime static_schema)) w in
  content w1 = content w
  /\ fst out = (if args_debug args then Raised e
                else SystemExit 2 (error_str e))
  /\ content (snd out) = content w
  /\ match from_url (args_url args) (args_timeout args) with
     | Ok vp =>
         update_plan strptime static_schema args vp (content w) = Err e
         /\ file_db w1 = Some (content w)
         /\ file_open w1 = false
     | Err e' => e' = e /\ w1 = w
     end.
Proof.
  intros Hrun out. subst out. unfold main.
  rewrite lift_bind_run in Hrun.
  destruct (from_url (args_url args) (args_timeout args)) as [vp|e'] eqn:Hurl.
  - destruct (update_cmd_run strptime static_schema args vp w)
      as [pos [added [E _]]].
    rewrite E in Hrun. injection Hrun as Hd <-.
    assert (Ep : update_plan strptime static_schema args vp (content w) = Err e).
    { destruct (update_plan strptime static_schema args vp (content w));
        simpl in Hd; congruence. }
    simpl. rewrite Ep. simpl. rewrite append_nil_r.
    split; [reflexivity|].
    destruct (args_debug args).
    + rewrite (bind_run _ _ w _ _ (emit_run ActiveLogger w)), lift_bind_run.
      destruct (update_cmd_run strptime static_schema args vp
                               (add_trace w [ActiveLogger]))
        as [pos' [added' [E' _]]].
      rewrite E', content_add_trace, Ep. simpl. rewrite append_nil_r.
      repeat split.
    + rewrite lift_bind_run, E, Ep. simpl. rewrite append_nil_r.
      repeat split.
  - injection Hrun as -> <-. split; [reflexivity|].
    destruct (args_debug args).
    + rewrite (bind_run _ _ w _ _ (emit_run ActiveLogger w)), lift_bind_run.
      simpl. repeat split.
    + rewrite lift_bind_run. simpl. repeat split.
Qed.

(** *** The batch against the store *)

(** C1, as the code has it: on a store whose newest record has
    [Datetime = T], a pass of [update_cmd] whose fetch goes through asks the
    station with lower bound [T] and no upper bound and appends the whole
    batch [getarchives] returns, one row for each of its records: the batch
    holds one record for every [Datetime] the station yielded, and none is
    left out because the store has its [Datetime] already.  When the store
    file is a header row and a row for each record, as [to_csv] writes them,
    the store then loads as its old records followed by the batch, so it has
    one row per [Datetime] exactly when it had before and the station
    yielded no [Datetime] that was stored. *)
Theorem update_cmd_appends_whole_batch (args : Args) (vp : VantagePro2)
        (w : World) (hdr : list string) (db : ListDict) :
  let d := args_delim args in
  csv_text_to_dict strptime d (content w) = Ok db ->
  db <> [] ->
  NoDup hdr -> In "Datetime" hdr ->
  (forall r0 t,
      newest db r0 -> strptime (Datetime r0) format_seconds = Some t ->
      goes_through strptime hdr (args_debug args)
                   (_get_archives_generator vp (Some t) None)) ->
  exists r0 t items w',
    newest db r0
    /\ strptime (Datetime r0) format_seconds = Some t
    /\ update_cmd strptime static_schema args vp w = (Ok tt, w')
    /\ fetches (trace w') = fetches (trace w) ++ [(Some t, None)]
    /\ fetch_result (_get_archives_generator vp (Some t) None) = Ok items
    /\ (forall x, In x (yielded (_get_archives_generator vp (Some t) None)) ->
                  exists r, In r items /\ Datetime r = Datetime x)
    /\ file_db w' = Some (content w ++ rows_text d (map values items))%string
    /\ (d <> dquote -> d <> LF ->
        consistent strptime hdr db -> content w = store_text d hdr db ->
        file_db w' = Some (store_text d hdr (db ++ items))
        /\ csv_text_to_dict strptime d (store_text d hdr (db ++ items))
           = Ok (db ++ items)
        /\ (NoDup (map Datetime (db ++ items))
            <-> NoDup (map Datetime db)
                /\ forall x,
                    In x (yielded (_get_archives_generator vp (Some t) None)) ->
                    ~ In (Datetime x) (map Datetime db))).
Proof.
  intros d Hload Hne Hn Hin Hvp.
  destruct (resume_point_newest db Hne (loaded_records_parse _ _ _ Hload))
    as [r0 [rest [t [_ [Hnew [_ [Ht Hr]]]]]]].
  pose proof (Hvp r0 t Hnew Ht) as Hg.
  destruct (update_cmd_goes_through args vp w db hdr (Some t)
              Hload Hr Hn Hin Hg)
    as [items [pos [added [Ef [Hwf [Hnd [Hfirst [Hcover [E Hf]]]]]]]]].
  set (g := _get_archives_generator vp (Some t) None) in *.
  assert (He : is_empty db = false) by (destruct db; [contradiction | reflexivity]).
  rewrite He in E. cbn [append] in E. fold d in E.
  exists r0, t, items. eexists. split; [exact Hnew|]. split; [exact Ht|].
  split; [exact E|]. cbn [trace file_db].
  split; [now rewrite fetches_app, Hf|].
  split; [exact Ef|]. split; [exact Hcover|]. split; [reflexivity|].
  intros Hq Hl [_ [_ Hdb]] Hw. split.
  { rewrite Hw. unfold store_text.
    now rewrite map_app, rows_text_app, append_assoc. }
  split.
  { apply load_store_text; try assumption.
    split; [exact Hn|]. split; [exact Hin|]. now apply Forall_app. }
  rewrite map_app. split.
  - intros Hall. split; [now apply NoDup_app_remove_r in Hall|].
    intros x Hx Hstored. destruct (Hcover x Hx) as [r [Hr0 Heq]].
    apply (NoDup_app_apart _ _ (Datetime x) Hall Hstored).
    rewrite <- Heq. now apply in_map.
  - intros [Hold Hfresh]. apply NoDup_app; try assumption.
    intros a Ha Hb. apply in_map_iff in Hb. destruct Hb as [r [<- Hr0]].
    apply (Hfresh r); [|exact Ha]. apply first_for_In. now apply Hfirst.
Qed.

(** *** Writing a store and loading it back *)

(** C6: for every non-empty collection with a consistent schema, the text
    [to_csv] writes with a header, put in a new empty store and loaded back
    with [csv_to_dict], is the collection again: the same records with the
    same field values, in the same order. *)
Theorem to_csv_csv_to_dict_roundtrip (d : ascii) (l : ListDict) :
  d <> dquote -> d <> LF ->
  l <> [] -> consistent strptime (schema_of static_schema l) l ->
  exists text,
    to_csv static_schema d true l = Ok text
    /\ csv_text_to_dict strptime d text = Ok l
    /\ fst ((write text ;;; with_open (csv_to_dict strptime d))
              (new_world (Some ""))) = Ok l.
Proof.
  intros Hq Hl Hne Hc.
  pose proof (to_csv_consistent strptime static_schema d true
                                (schema_of static_schema l) l eq_refl Hc) as Et.
  pose proof (load_store_text strptime d Hq Hl (schema_of static_schema l) l Hc)
    as Eload.
  unfold store_text in Eload.
  eexists. split; [exact Et|]. split; [exact Eload|].
  unfold bind, write, with_open, open_rplus, csv_to_dict, new_world.
  simpl. unfold bind, read_all, lift. simpl.
  rewrite !content_mk.
  match goal with
  | |- context [string_drop ?n EmptyString] =>
      replace (string_drop n EmptyString) with EmptyString by now destruct n
  end.
  rewrite append_nil_r. simpl. rewrite Eload. reflexivity.
Qed.

End Merge.

(* ================================================================== *)
(** ** The theorems at work on the station of section 8 *)

Lemma station_well_formed (memory : list Dict) (start stop : option datetime) :
  Forall (well_formed strptime_fixed schema) memory ->
  raised (_get_archives_generator (station memory) start stop) = None
  /\ Forall (well_formed strptime_fixed schema)
            (yielded (_get_archives_generator (station memory) start stop)).
Proof.
  intros H. split; [reflexivity|]. simpl. apply Forall_forall.
  intros r Hr. apply filter_In in Hr. rewrite Forall_forall in H.
  now apply H.
Qed.

Lemma schema_NoDup : NoDup schema.
Proof.
  repeat constructor; simpl; intuition discriminate.
Qed.

Lemma rec_0000_well_formed : well_formed strptime_fixed schema rec_0000.
Proof. split; [reflexivity | now exists midnight]. Qed.

Lemma rec_0005_well_formed : well_formed strptime_fixed schema rec_0005.
Proof. split; [reflexivity | now exists (mkDatetime 2024 1 1 0 5 0)]. Qed.

Lemma comma_not_quote : comma <> dquote.
Proof. discriminate. Qed.

Lemma comma_not_LF : comma <> LF.
Proof. discriminate. Qed.

(** The first run on a machine without a store file creates it, asks for
    everything and writes header and rows, oldest first. *)
Example first_run_creates_store :
  let out := update_cmd strptime_fixed schema (default_args false)
                        (station [rec_0005; rec_0000; rec_0005_again])
                        (new_world None) in
  fst out = Ok tt
  /\ file_db (snd out) = Some (store_text comma schema [rec_0000; rec_0005])
  /\ trace (snd out)
     = [Fetch None None; PbarStart 2600; PbarUpdate 0; PbarUpdate 1;
        PbarUpdate 2; PbarFinish; Print "2 new records were found"].
Proof. repeat split. Qed.

(** A value that holds the delimiter is written between quotes and read
    back whole. *)
Example quoted_value_row :
  csv_row comma (values rec_0010)
  = ("2024-01-01 00:10:00," ++ String dquote ("21,5" ++ String dquote (String LF "")))%string
  /\ csv_rows comma (csv_row comma (values rec_0010)) = Some [values rec_0010].
Proof. split; reflexivity. Qed.

(** A run on a store whose newest timestamp does not parse stops at the
    load, and the file stays as it was. *)
Example malformed_store_aborts :
  let text := (csv_row comma schema ++ csv_row comma ["yesterday"; "20"])%string in
  let out := update_cmd strptime_fixed schema (default_args false)
                        (station [rec_0005]) (new_world (Some text)) in
  fst out = Err (MalformedStoreError "timestamp cannot be parsed")
  /\ file_db (snd out) = Some text
  /\ fetches (trace (snd out)) = [].
Proof. repeat split. Qed.

Lemma station_goes_through (memory : list Dict) (start stop : option datetime)
      (debug : bool) :
  Forall (well_formed strptime_fixed schema) memory ->
  List.length memory <= 2601 ->
  goes_through strptime_fixed schema debug
               (_get_archives_generator (station memory) start stop).
Proof.
  intros H Hn. destruct (station_well_formed memory start stop H) as [Hr Hy].
  split; [exact Hr|]. split; [exact Hy|]. right. simpl.
  pose proof (filter_length_le (in_window start stop) memory).
  lia.
Qed.

Lemma archive_has_datetime (n : nat) : Forall has_datetime (archive n).
Proof.
  apply Forall_forall. intros r Hr. apply in_map_iff in Hr.
  destruct Hr as [i [<- _]]. discriminate.
Qed.

Lemma archive_length (n : nat) : List.length (archive n) = n.
Proof. unfold archive. now rewrite length_map, length_seq. Qed.

(** Three records, one of them sent twice, come back as two, oldest first;
    a download of 2602 records stops at the bar. *)
Lemma getarchives_first_seen_sorted_witness :
  let args := default_args false in
  let vp := station [rec_0005; rec_0000; rec_0005_again] in
  let g := _get_archives_generator vp (args_start args) (args_stop args) in
  let long := _get_archives_generator (playback (archive 2602))
                                      (args_start args) (args_stop args) in
  (raised g = None
   /\ Forall has_datetime (yielded g)
   /\ bar_room (args_debug args) (List.length (yielded g))
   /\ exists out w',
       getarchives args vp (new_world None) = (Ok out, w')
       /\ NoDup (map Datetime out)
       /\ ascending out
       /\ (forall r, In r out -> first_for (yielded g) r)
       /\ (forall x, In x (yielded g) ->
                     exists r, In r out /\ Datetime r = Datetime x)
       /\ (yielded g = [] -> out = []))
  /\ (raised long = None
      /\ Forall has_datetime (yielded long)
      /\ List.length (yielded long) = 2602
      /\ fst (getarchives args (playback (archive 2602)) (new_world None))
         = Err (ValueError "Value out of range")).
Proof.
  intros args vp g long. split.
  - assert (Hy : Forall has_datetime (yielded g)).
    { vm_compute. repeat constructor; discriminate. }
    assert (Hroom : bar_room (args_debug args) (List.length (yielded g))).
    { right. vm_compute. lia. }
    split; [reflexivity|]. split; [exact Hy|]. split; [exact Hroom|].
    exact (proj1 (getarchives_first_seen_sorted args vp (new_world None)
                    eq_refl Hy) Hroom).
  - assert (Hy : Forall has_datetime (yielded long))
      by exact (archive_has_datetime 2602).
    assert (Hn : List.length (yielded long) = 2602)
      by exact (archive_length 2602).
    split; [reflexivity|]. split; [exact Hy|]. split; [exact Hn|].
    refine (proj2 (getarchives_first_seen_sorted args (playback (archive 2602))
                     (new_world None) eq_refl Hy) eq_refl _).
    fold long. rewrite Hn. lia.
Defined.

(** On a download of 2602 records the debug path returns a collection and
    the path with the bar raises. *)
Lemma getarchives_progress_agnostic_witness :
  let args := default_args false in
  let vp := playback (archive 2602) in
  let w := new_world None in
  (exists out, fst (getarchives (set_debug true args) vp w) = Ok out)
  /\ fst (getarchives (set_debug false args) vp w)
     = Err (ValueError "Value out of range").
Proof.
  intros args vp w.
  refine (proj2 (proj2 (proj2 (getarchives_progress_agnostic args vp w)))
            eq_refl (archive_has_datetime 2602) _).
  change (2601 < List.length (archive 2602)).
  rewrite archive_length. lia.
Defined.

(** A store of three records out of order: the request starts at the
    newest of them, the second row of the file. *)
Lemma update_cmd_resume_point_witness :
  let args := default_args false in
  let vp := station [rec_0000; rec_0005; rec_0010] in
  let db := [rec_0005; rec_0010; rec_0000] in
  let w := new_world (Some (store_text comma schema db)) in
  let w' := snd (update_cmd strptime_fixed schema args vp w) in
  csv_text_to_dict strptime_fixed (args_delim args) (content w) = Ok db
  /\ sorted_by "Datetime" true db = Ok [rec_0010; rec_0005; rec_0000]
  /\ fetches (trace w') = [(Some (mkDatetime 2024 1 1 0 10 0), None)]
  /\ exists r0 rest t,
      sorted_by "Datetime" true db = Ok (r0 :: rest)
      /\ newest db r0
      /\ lookup "Datetime" r0 = Some (Datetime r0)
      /\ strptime_fixed (Datetime r0) format_seconds = Some t
      /\ fetches (trace w') = fetches (trace w) ++ [(Some t, None)].
Proof.
  intros args vp db w w'. split; [reflexivity|]. split; [reflexivity|].
  split; [reflexivity|].
  exact (update_cmd_resume_point strptime_fixed schema args vp w db eq_refl).
Defined.

Lemma two_records_well_formed :
  Forall (well_formed strptime_fixed schema) [rec_0000; rec_0005].
Proof.
  constructor; [exact rec_0000_well_formed|].
  constructor; [exact rec_0005_well_formed | constructor].
Qed.

Lemma in_schema : In "Datetime" schema.
Proof. now left. Qed.




Lemma failed_update_aborts_witness :
  let args := default_args false in
  let w := new_world (Some store_one) in
  let run := (vp <- lift (flaky_url (args_url args) (args_timeout args)) ;;
              update_cmd strptime_fixed schema args vp) in
  let out := main flaky_url args (Some (update_cmd strptime_fixed schema)) w in
  run w = (Err link_down, snd (run w))
  /\ content (snd (run w)) = content w
  /\ fst out = (if args_debug args then Raised link_down
                else SystemExit 2 (error_str link_down))
  /\ content (snd out) = content w
  /\ match flaky_url (args_url args) (args_timeout args) with
     | Ok vp =>
         update_plan strptime_fixed schema args vp (content w) = Err link_down
         /\ file_db (snd (run w)) = Some (content w)
         /\ file_open (snd (run w)) = false
     | Err e' => e' = link_down /\ snd (run w) = w
     end.
Proof.
  intros args w run out.
  assert (Hrun : run w = (Err link_down, snd (run w))) by reflexivity.
  split; [exact Hrun|].
  exact (failed_update_aborts strptime_fixed schema flaky_url args w
                              (snd (run w)) link_down Hrun).
Defined.

Lemma to_csv_csv_to_dict_roundtrip_witness :
  let l := [rec_0010; rec_0000] in
  comma <> dquote /\ comma <> LF /\ l <> []
  /\ consistent strptime_fixed (schema_of schema l) l
  /\ exists text,
      to_csv schema comma true l = Ok text
      /\ csv_text_to_dict strptime_fixed comma text = Ok l
      /\ fst ((write text ;;; with_open (csv_to_dict strptime_fixed comma))
                (new_world (Some ""))) = Ok l.
Proof.
  intros l.
  assert (Hne : l <> []) by discriminate.
  assert (Hc : consistent strptime_fixed (schema_of schema l) l).
  { split; [exact schema_NoDup|]. split; [now left|].
    repeat constructor.
    - now exists (mkDatetime 2024 1 1 0 10 0).
    - now exists midnight. }
  split; [exact comma_not_quote|]. split; [exact comma_not_LF|].
  split; [exact Hne|]. split; [exact Hc|].
  exact (to_csv_csv_to_dict_roundtrip strptime_fixed schema comma l
                                      comma_not_quote comma_not_LF Hne Hc).
Defined.

Lemma update_cmd_appends_whole_batch_witness :
  let args := default_args false in
  let vp := station [rec_0000; rec_0005] in
  let w := new_world (Some store_one) in
  let d := args_delim args in
  let db := [rec_0000] in
  csv_text_to_dict strptime_fixed d (content w) = Ok db
  /\ db <> [] /\ NoDup schema /\ In "Datetime" schema
  /\ goes_through strptime_fixed schema (args_debug args)
                  (_get_archives_generator vp (Some midnight) None)
  /\ exists r0 t items w',
      newest db r0
      /\ strptime_fixed (Datetime r0) format_seconds = Some t
      /\ update_cmd strptime_fixed schema args vp w = (Ok tt, w')
      /\ fetches (trace w') = fetches (trace w) ++ [(Some t, None)]
      /\ fetch_result (_get_archives_generator vp (Some t) None) = Ok items
      /\ (forall x, In x (yielded (_get_archives_generator vp (Some t) None)) ->
                    exists r, In r items /\ Datetime r = Datetime x)
      /\ file_db w' = Some (content w ++ rows_text d (map values items))%string
      /\ (d <> dquote -> d <> LF ->
          consistent strptime_fixed schema db ->
          content w = store_text d schema db ->
          file_db w' = Some (store_text d schema (db ++ items))
          /\ csv_text_to_dict strptime_fixed d (store_text d schema (db ++ items))
             = Ok (db ++ items)
          /\ (NoDup (map Datetime (db ++ items))
              <-> NoDup (map Datetime db)
                  /\ forall x,
                      In x (yielded (_get_archives_generator vp (Some t) None)) ->
                      ~ In (Datetime x) (map Datetime db))).
Proof.
  intros args vp w d db.
  assert (Hg : forall start,
             goes_through strptime_fixed schema (args_debug args)
                          (_get_archives_generator vp start None)).
  { intros start. apply station_goes_through;
      [exact two_records_well_formed | simpl; lia]. }
  assert (Hdb : db <> []) by discriminate.
  split; [reflexivity|]. split; [exact Hdb|]. split; [exact schema_NoDup|].
  split; [exact in_schema|]. split; [exact (Hg (Some midnight))|].
  refine (update_cmd_appends_whole_batch strptime_fixed schema args vp w schema db
            eq_refl Hdb schema_NoDup in_schema _).
  intros r0 t _ _. exact (Hg (Some t)).
Defined.

(* ================================================================== *)
(** ** Where the code parts from the specification *)

(** The scenario of section 8: the store holds the record of midnight, and
    the station, asked from midnight on, yields that record and the one of
    00:05.  The boundary record is written a second time. *)
Lemma update_cmd_duplicates_boundary :
  let args := default_args false in
  let vp := station [rec_0000; rec_0005] in
  let w := new_world (Some store_one) in
  let w' := snd (update_cmd strptime_fixed schema args vp w) in
  csv_text_to_dict strptime_fixed comma (content w) = Ok [rec_0000]
  /\ fetches (trace w') = [(Some midnight, None)]
  /\ yielded (_get_archives_generator vp (Some midnight) None)
     = [rec_0000; rec_0005]
  /\ csv_text_to_dict strptime_fixed comma (content w')
     = Ok [rec_0000; rec_0000; rec_0005]
  /\ ~ NoDup (map Datetime [rec_0000; rec_0000; rec_0005]).
Proof.
  intros args vp w w'. repeat split.
  intros H. inversion H as [|? ? Hnot _]; subst. apply Hnot. now left.
Qed.

(** A link that fails during the fetch, outside debug mode: [update_cmd]
    raises the error of the link, and [main] turns it into an exit with
    status 2 that carries its text only, the same exit a [ValueError] with
    that text gives. *)
Lemma main_catches_error :
  let args := default_args false in
  let w := new_world (Some store_one) in
  let update := update_cmd strptime_fixed schema in
  let other (_ : string) (_ : nat) :=
    Ok (broken_station [rec_0005] (ValueError "link down")) in
  fst (update args (broken_station [rec_0005] link_down) w) = Err link_down
  /\ fst (main flaky_url args (Some update) w) = SystemExit 2 "link down"
  /\ fst (main flaky_url args (Some update) w) <> Raised link_down
  /\ fst (main other args (Some update) w)
     = fst (main flaky_url args (Some update) w).
Proof.
  intros args w update other. repeat split. discriminate.
Qed.

(* ================================================================== *)
(** ** More on [getarchives]: the progress bar and the summary line *)

Lemma bar_updates_cons (step n : nat) :
  PbarUpdate step :: bar_updates (S step) n = bar_updates step (S n).
Proof. reflexivity. Qed.

(** The loop notifies the bar once for every record it reaches, counting
    from [step], as long as the bar accepts the step, and keeps what
    [bar_seen] says. *)
Lemma archives_loop_run (records : list Dict) :
  forall step archives dates seen w,
    (forall x, mem x seen = mem x dates) ->
    exists res,
      archives_loop step records archives dates w
      = (res, add_trace w (bar_updates step
                             (Nat.min (processed records) (2601 - step))))
      /\ kept res
         = result_bind (bar_seen step seen records) (fun acc => Ok (archives ++ acc)).
Proof.
  induction records as [|r rest IH]; intros step archives dates seen w Hs.
  - exists (Ok (archives, dates)). cbn [archives_loop bar_seen processed].
    unfold ret. cbn [Nat.min bar_updates seq map]. rewrite add_trace_nil.
    simpl. now rewrite app_nil_r.
  - cbn [archives_loop processed bar_seen]. unfold bind at 1.
    rewrite pbar_update_run.
    destruct (Nat.leb step 2600) eqn:Hl.
    + apply Nat.leb_le in Hl.
      rewrite lift_bind_run. unfold getitem.
      destruct (lookup "Datetime" r) as [d|]; cbn [result_bind].
      * assert (Hm : Nat.min (S (processed rest)) (2601 - step)
                     = S (Nat.min (processed rest) (2601 - S step))) by lia.
        rewrite Hm, <- bar_updates_cons.
        rewrite Hs. destruct (mem d dates) eqn:Hmem; cbn [negb].
        -- destruct (IH (S step) archives dates seen
                        (add_trace w [PbarUpdate step]) Hs) as [res [E Hk]].
           exists res. rewrite E, add_trace_add.
           split; [reflexivity | exact Hk].
        -- destruct (IH (S step) (archives ++ [r]) (dates ++ [d]) (d :: seen)
                        (add_trace w [PbarUpdate step])) as [res [E Hk]].
           { intros x. simpl. rewrite mem_app, Hs. simpl.
             rewrite orb_false_r. apply orb_comm. }
           exists res. rewrite E, add_trace_add. split; [reflexivity|].
           rewrite Hk.
           destruct (bar_seen (S step) (d :: seen) rest); simpl; [|reflexivity].
           now rewrite <- app_assoc.
      * assert (Hm : Nat.min 1 (2601 - step) = 1) by lia.
        rewrite Hm. exists (Err (KeyError "Datetime")). split; reflexivity.
    + apply Nat.leb_gt in Hl.
      assert (Hm : forall n, Nat.min n (2601 - step) = 0) by (intros n; lia).
      exists (Err (ValueError "Value out of range")).
      destruct (lookup "Datetime" r); rewrite Hm; cbn [bar_updates seq map];
        rewrite add_trace_nil; split; reflexivity.
Qed.

(** The run of [getarchives] with the progress bar, in full. *)
Lemma getarchives_bar_run (args : Args) (vp : VantagePro2) (w : World) :
  args_debug args = false ->
  let g := _get_archives_generator vp (args_start args) (args_stop args) in
  getarchives args vp w
  = (fst (bar_ending g),
     add_trace w ([Fetch (args_start args) (args_stop args); PbarStart 2600]
                  ++ bar_updates 0 (Nat.min (processed (yielded g)) 2601)
                  ++ snd (bar_ending g))).
Proof.
  intros Hd g. unfold getarchives. rewrite Hd. fold g.
  rewrite (bind_run _ _ w _ _ (call_generator_run vp _ _ w)). fold g.
  rewrite (bind_run _ _ _ _ _ (emit_run (PbarStart 2600) _)), add_trace_add.
  destruct (archives_loop_run (yielded g) 0 [] [] []
              (add_trace w ([Fetch (args_start args) (args_stop args)]
                            ++ [PbarStart 2600])))
    as [res [E Hk]]; [reflexivity|].
  rewrite Nat.sub_0_r in E.
  unfold bind at 1. rewrite E, add_trace_add. unfold bar_ending.
  destruct res as [[archives dates]|e]; simpl in Hk.
  - destruct (bar_seen 0 [] (yielded g)) as [acc|e']; simpl in Hk;
      [|discriminate]. injection Hk as ->. cbn [fst].
    destruct (raised g) as [e|]; cbn [fst snd].
    + rewrite app_nil_r. reflexivity.
    + rewrite (bind_run _ _ _ _ _ (emit_run PbarFinish _)), add_trace_add.
      assert (Hp : forall line,
                 bind (print line)
                      (fun _ => lift (sorted_by "Datetime" false acc))
                      (add_trace w
                         ((([Fetch (args_start args) (args_stop args)]
                            ++ [PbarStart 2600])
                           ++ bar_updates 0 (Nat.min (processed (yielded g)) 2601))
                          ++ [PbarFinish]))
                 = (sorted_by "Datetime" false acc,
                    add_trace w
                      ([Fetch (args_start args) (args_stop args); PbarStart 2600]
                       ++ bar_updates 0 (Nat.min (processed (yielded g)) 2601)
                       ++ [PbarFinish; Print line]))).
      { intros line. unfold print.
        rewrite (bind_run _ _ _ _ _ (emit_run (Print line) _)), add_trace_add.
        unfold lift. f_equal. f_equal. simpl. now rewrite <- !app_assoc. }
      unfold summary_line.
      destruct (List.length acc) as [|[|n]]; apply Hp.
  - destruct (bar_seen 0 [] (yielded g)) as [acc|e']; simpl in Hk;
      [discriminate|]. injection Hk as ->. cbn [fst snd].
    rewrite app_nil_r. reflexivity.
Qed.

(** The run of [getarchives] with the progress bar when the bar has room for
    every record the loop reaches. *)
Lemma getarchives_bar_room (args : Args) (vp : VantagePro2) (w : World) :
  args_debug args = false ->
  let g := _get_archives_generator vp (args_start args) (args_stop args) in
  processed (yielded g) <= 2601 ->
  getarchives args vp w
  = (match first_seen [] (yielded g) with
     | Err e => Err e
     | Ok acc => match raised g with
                 | Some e => Err e
                 | None => sorted_by "Datetime" false acc
                 end
     end,
     add_trace w ([Fetch (args_start args) (args_stop args); PbarStart 2600]
                  ++ bar_updates 0 (processed (yielded g))
                  ++ match first_seen [] (yielded g), raised g with
                     | Ok acc, None =>
                         [PbarFinish; Print (summary_line (List.length acc))]
                     | _, _ => []
                     end)).
Proof.
  intros Hd g Hp. rewrite (getarchives_bar_run args vp w Hd). fold g.
  unfold bar_ending. rewrite (bar_seen_room (yielded g) 0 [] Hp).
  rewrite Nat.min_l by exact Hp.
  destruct (first_seen [] (yielded g)) as [acc|e]; [|reflexivity].
  destruct (raised g); reflexivity.
Qed.

Lemma processed_all (records : list Dict) :
  Forall has_datetime records -> processed records = List.length records.
Proof.
  induction 1 as [|r l Hr _ IH]; simpl; [reflexivity|].
  rewrite (has_datetime_lookup r Hr). now rewrite IH.
Qed.

Lemma processed_until (l1 l2 : list Dict) (r : Dict) :
  Forall has_datetime l1 -> lookup "Datetime" r = None ->
  processed (l1 ++ r :: l2) = S (List.length l1).
Proof.
  intros H Hr. induction H as [|x l Hx _ IH]; simpl.
  - now rewrite Hr.
  - rewrite (has_datetime_lookup x Hx). now rewrite IH.
Qed.

Lemma first_seen_missing (l1 l2 : list Dict) (r : Dict) :
  Forall has_datetime l1 -> lookup "Datetime" r = None ->
  forall seen, first_seen seen (l1 ++ r :: l2) = Err (KeyError "Datetime").
Proof.
  intros H Hr. induction H as [|x l Hx _ IH]; intros seen; simpl.
  - unfold getitem. now rewrite Hr.
  - rewrite (getitem_datetime x Hx). simpl.
    destruct (mem (Datetime x) seen); [apply IH|]. now rewrite IH.
Qed.

Lemma bar_updates_In (v from n : nat) :
  In (PbarUpdate v) (bar_updates from n) <-> from <= v < from + n.
Proof.
  unfold bar_updates. rewrite in_map_iff. split.
  - intros [x [E Hx]]. injection E as ->. now apply in_seq.
  - intros H. exists v. split; [reflexivity | now apply in_seq].
Qed.

Lemma printed_app (a b : list Event) : printed (a ++ b) = printed a ++ printed b.
Proof. unfold printed. apply flat_map_app. Qed.

Lemma printed_bar_updates (from n : nat) : printed (bar_updates from n) = [].
Proof.
  unfold bar_updates. revert from.
  induction n as [|n IH]; intros from; simpl; [reflexivity | apply IH].
Qed.

Lemma getarchives_bar_success (args : Args) (vp : VantagePro2) (w : World) :
  args_debug args = false ->
  let g := _get_archives_generator vp (args_start args) (args_stop args) in
  raised g = None ->
  Forall has_datetime (yielded g) ->
  List.length (yielded g) <= 2601 ->
  exists out,
    fetch_result g = Ok out
    /\ getarchives args vp w
       = (Ok out,
          add_trace w ([Fetch (args_start args) (args_stop args); PbarStart 2600]
                       ++ bar_updates 0 (List.length (yielded g))
                       ++ [PbarFinish; Print (summary_line (List.length out))])).
Proof.
  intros Hd g Hr Hy Hn.
  destruct (fetch_result_spec g Hr Hy)
    as [acc [out [Ea [E [Hp _]]]]].
  exists out. split; [exact E|].
  rewrite (getarchives_bar_room args vp w Hd); fold g;
    [|now rewrite (processed_all _ Hy)].
  rewrite Ea, Hr.
  rewrite (processed_all _ Hy), (Permutation_length Hp).
  unfold fetch_result in E. rewrite Ea, Hr in E. simpl in E.
  now rewrite E.
Qed.

(** X1: a fetch with the progress bar of at most 2601 records that goes
    well does, in this order: one request to the station, [start] of a bar
    of 2600, one [update] per record yielded, numbered from 0 and duplicates
    included, [finish], and one summary line. *)
Theorem getarchives_bar_protocol (args : Args) (vp : VantagePro2) (w : World) :
  args_debug args = false ->
  let g := _get_archives_generator vp (args_start args) (args_stop args) in
  raised g = None ->
  Forall has_datetime (yielded g) ->
  List.length (yielded g) <= 2601 ->
  exists out,
    fetch_result g = Ok out
    /\ getarchives args vp w
       = (Ok out,
          add_trace w ([Fetch (args_start args) (args_stop args); PbarStart 2600]
                       ++ bar_updates 0 (List.length (yielded g))
                       ++ [PbarFinish; Print (summary_line (List.length out))])).
Proof.
  intros Hd g Hr Hy Hn.
  exact (getarchives_bar_success args vp w Hd Hr Hy Hn).
Qed.

(** X16: a fetch with the progress bar of more than 2601 records stops at
    the bar: after the request and [start], the bar takes the updates 0 to
    2600, the next one raises [ValueError('Value out of range')], and that
    is the error of [getarchives], whatever the generator would have done
    later; the bar is never finished and nothing is printed. *)
Theorem getarchives_bar_overflow (args : Args) (vp : VantagePro2) (w : World) :
  args_debug args = false ->
  let g := _get_archives_generator vp (args_start args) (args_stop args) in
  Forall has_datetime (yielded g) ->
  2601 < List.length (yielded g) ->
  getarchives args vp w
  = (Err (ValueError "Value out of range"),
     add_trace w ([Fetch (args_start args) (args_stop args); PbarStart 2600]
                  ++ bar_updates 0 2601)).
Proof.
  intros Hd g Hy Hn. rewrite (getarchives_bar_run args vp w Hd). fold g.
  unfold bar_ending.
  rewrite (bar_seen_overflow (yielded g) 0 [] Hy) by lia.
  cbn [fst snd]. rewrite (processed_all _ Hy), app_nil_r.
  now rewrite Nat.min_r by lia.
Qed.

Lemma first_seen_datetimes (g : Generator) (out : ListDict) :
  raised g = None -> Forall has_datetime (yielded g) ->
  fetch_result g = Ok out ->
  List.length out
  = List.length (nodup string_dec (map Datetime (yielded g))).
Proof.
  intros Hr Hy E.
  destruct (fetch_result_spec g Hr Hy)
    as [acc [out' [_ [E' [_ [_ [Hn [Hf Hc]]]]]]]].
  rewrite E in E'. injection E' as <-.
  rewrite <- (length_map Datetime out).
  apply Permutation_length, NoDup_Permutation;
    [exact Hn | apply NoDup_nodup |].
  intros d. rewrite nodup_In, !in_map_iff. split.
  - intros [r [<- Hin]]. exists r. split; [reflexivity|].
    now apply first_for_In, Hf.
  - intros [x [<- Hin]]. destruct (Hc x Hin) as [r [Hr0 Heq]].
    now exists r.
Qed.

(** X2: the summary line of a fetch with the progress bar of at most 2601
    records that goes well tells the number of records returned, which is
    the number of distinct [Datetime] values among the records yielded,
    never more than the number yielded; it is the only line printed. *)
Theorem getarchives_summary_counts (args : Args) (vp : VantagePro2) (w : World) :
  args_debug args = false ->
  let g := _get_archives_generator vp (args_start args) (args_stop args) in
  raised g = None ->
  Forall has_datetime (yielded g) ->
  List.length (yielded g) <= 2601 ->
  exists out w',
    getarchives args vp w = (Ok out, w')
    /\ printed (trace w') = printed (trace w) ++ [summary_line (List.length out)]
    /\ List.length out
       = List.length (nodup string_dec (map Datetime (yielded g)))
    /\ List.length out <= List.length (yielded g).
Proof.
  intros Hd g Hr Hy Hn.
  destruct (getarchives_bar_success args vp w Hd Hr Hy Hn) as [out [Ef E]].
  fold g in E, Ef. exists out. eexists. split; [exact E|].
  pose proof (first_seen_datetimes g out Hr Hy Ef) as Hlen.
  split; [|split; [exact Hlen|]].
  - unfold add_trace. cbn [trace]. rewrite !printed_app, printed_bar_updates.
    reflexivity.
  - rewrite Hlen, <- (length_map Datetime (yielded g)).
    apply NoDup_incl_length; [apply NoDup_nodup|].
    intros d Hin. now apply nodup_In in Hin.
Qed.

(** X3: when a yielded record has no [Datetime] and at most 2600 records
    come before it, the fetch with the progress bar raises
    [KeyError('Datetime')] at the first such record, whatever comes after
    it: the bar has been updated for that record and the ones before, it is
    never finished, and nothing is printed. *)
Theorem getarchives_missing_datetime (args : Args) (vp : VantagePro2) (w : World)
        (l1 l2 : list Dict) (r : Dict) :
  args_debug args = false ->
  yielded (_get_archives_generator vp (args_start args) (args_stop args))
  = l1 ++ r :: l2 ->
  Forall has_datetime l1 ->
  lookup "Datetime" r = None ->
  List.length l1 <= 2600 ->
  getarchives args vp w
  = (Err (KeyError "Datetime"),
     add_trace w ([Fetch (args_start args) (args_stop args); PbarStart 2600]
                  ++ bar_updates 0 (S (List.length l1)))).
Proof.
  intros Hd Hy Hl Hr Hn.
  rewrite (getarchives_bar_room args vp w Hd);
    rewrite Hy, (processed_until l1 l2 r Hl Hr); [|lia].
  rewrite (first_seen_missing l1 l2 r Hl Hr).
  now rewrite app_nil_r.
Qed.

(** X4: when the generator raises after it has yielded at most 2601
    records that all carry a [Datetime], the fetch with the progress bar
    raises the same error once those records are consumed: the bar has been
    updated for each of them, it is never finished, and nothing is
    printed. *)
Theorem getarchives_generator_raises (args : Args) (vp : VantagePro2) (w : World)
        (e : Error) :
  args_debug args = false ->
  let g := _get_archives_generator vp (args_start args) (args_stop args) in
  raised g = Some e ->
  Forall has_datetime (yielded g) ->
  List.length (yielded g) <= 2601 ->
  getarchives args vp w
  = (Err e,
     add_trace w ([Fetch (args_start args) (args_stop args); PbarStart 2600]
                  ++ bar_updates 0 (List.length (yielded g)))).
Proof.
  intros Hd g Hr Hy Hn.
  rewrite (getarchives_bar_room args vp w Hd); fold g;
    [|now rewrite (processed_all _ Hy)].
  destruct (first_seen_spec (yielded g) Hy []) as [acc [Ea _]].
  rewrite Ea, Hr. now rewrite (processed_all _ Hy), app_nil_r.
Qed.

(* ================================================================== *)
(** ** More on [getarchives]: order of arrival and fetching again *)

Lemma first_seen_keeps_all (l : list Dict) :
  Forall has_datetime l -> NoDup (map Datetime l) ->
  forall seen,
    (forall r, In r l -> mem (Datetime r) seen = false) ->
    first_seen seen l = Ok l.
Proof.
  induction 1 as [|r l Hr _ IH]; intros Hn seen Hs; simpl; [reflexivity|].
  rewrite (getitem_datetime r Hr). simpl.
  rewrite (Hs r) by now left.
  inversion Hn as [|? ? Hnot Hn']; subst.
  rewrite IH; [reflexivity | exact Hn' |].
  intros x Hx. simpl. rewrite (Hs x) by now right.
  rewrite orb_false_r. apply String.eqb_neq. intros Heq.
  apply Hnot. rewrite <- Heq. now apply in_map.
Qed.

Lemma first_seen_ok_has_datetime (l : list Dict) :
  forall seen acc, first_seen seen l = Ok acc -> Forall has_datetime l.
Proof.
  induction l as [|r l IH]; intros seen acc E; [constructor|].
  simpl in E. unfold getitem in E.
  destruct (lookup "Datetime" r) as [d|] eqn:El; simpl in E; [|discriminate].
  constructor; [unfold has_datetime; congruence|].
  destruct (mem d seen); [now apply (IH seen acc)|].
  destruct (first_seen (d :: seen) l) as [acc'|] eqn:E'; [|discriminate].
  now apply (IH (d :: seen) acc').
Qed.

Lemma same_datetime_same_record (l : list Dict) (a b : Dict) :
  NoDup (map Datetime l) -> In a l -> In b l -> Datetime a = Datetime b -> a = b.
Proof.
  induction l as [|x l IH]; simpl; [easy|]. intros Hn Ha Hb Heq.
  inversion Hn as [|? ? Hnot Hn']; subst.
  destruct Ha as [->|Ha], Hb as [->|Hb]; try reflexivity.
  - exfalso. apply Hnot. rewrite Heq. now apply in_map.
  - exfalso. apply Hnot. rewrite <- Heq. now apply in_map.
  - now apply IH.
Qed.

(** Two collections sorted by [Datetime] that hold the same records, no two
    with the same [Datetime], are the same collection. *)
Lemma sorted_unique (l1 : ListDict) :
  forall l2,
    StronglySorted (by_datetime false) l1 ->
    StronglySorted (by_datetime false) l2 ->
    Permutation l1 l2 -> NoDup (map Datetime l1) -> l1 = l2.
Proof.
  induction l1 as [|a l1 IH]; intros l2 H1 H2 Hp Hn.
  - now apply Permutation_nil in Hp.
  - destruct l2 as [|b l2].
    { apply Permutation_sym, Permutation_nil in Hp. discriminate. }
    inversion H1 as [|? ? H1' Ha]; subst.
    inversion H2 as [|? ? H2' Hb]; subst.
    rewrite Forall_forall in Ha, Hb.
    assert (Hab : a = b).
    { assert (Hin_b : In b (a :: l1)).
      { eapply Permutation_in; [apply Permutation_sym, Hp | now left]. }
      assert (Hin_a : In a (b :: l2)).
      { eapply Permutation_in; [exact Hp | now left]. }
      destruct Hin_b as [E|Hin_b]; [exact E|].
      destruct Hin_a as [E|Hin_a]; [now symmetry|].
      apply (same_datetime_same_record (a :: l1)); try assumption;
        [now left | now right |].
      apply String.leb_antisym; [exact (Ha b Hin_b) | exact (Hb a Hin_a)]. }
    subst b. f_equal. apply IH; try assumption.
    + now apply Permutation_cons_inv in Hp.
    + now inversion Hn.
Qed.

(** X5: when the records yielded carry pairwise distinct [Datetime] values
    and the bar has room for them, the collection [getarchives] returns does
    not depend on the order in which they arrive: two stations that yield
    the same records in different orders give the same collection, which
    holds every one of them. *)
Theorem getarchives_order_independent (args : Args) (vp1 vp2 : VantagePro2)
        (w1 w2 : World) :
  let g1 := _get_archives_generator vp1 (args_start args) (args_stop args) in
  let g2 := _get_archives_generator vp2 (args_start args) (args_stop args) in
  raised g1 = None -> raised g2 = None ->
  Forall has_datetime (yielded g1) ->
  NoDup (map Datetime (yielded g1)) ->
  Permutation (yielded g1) (yielded g2) ->
  bar_room (args_debug args) (List.length (yielded g1)) ->
  exists out,
    fst (getarchives args vp1 w1) = Ok out
    /\ fst (getarchives args vp2 w2) = Ok out
    /\ Permutation (yielded g1) out.
Proof.
  intros g1 g2 Hr1 Hr2 Hy1 Hn1 Hp Hroom1.
  assert (Hy2 : Forall has_datetime (yielded g2)).
  { eapply Permutation_Forall; eassumption. }
  assert (Hn2 : NoDup (map Datetime (yielded g2))).
  { eapply Permutation_NoDup; [apply Permutation_map, Hp | exact Hn1]. }
  assert (Hroom2 : bar_room (args_debug args) (List.length (yielded g2))).
  { now rewrite <- (Permutation_length Hp). }
  destruct (fetch_result_spec g1 Hr1 Hy1)
    as [acc1 [out1 [Ea1 [E1 [Hp1 [Hs1 [Hd1 _]]]]]]].
  destruct (fetch_result_spec g2 Hr2 Hy2)
    as [acc2 [out2 [Ea2 [E2 [Hp2 [Hs2 _]]]]]].
  rewrite (first_seen_keeps_all _ Hy1 Hn1) in Ea1 by reflexivity.
  rewrite (first_seen_keeps_all _ Hy2 Hn2) in Ea2 by reflexivity.
  injection Ea1 as <-. injection Ea2 as <-.
  assert (Heq : out1 = out2).
  { apply sorted_unique; try assumption.
    eapply perm_trans; [apply Permutation_sym, Hp1|].
    eapply perm_trans; [exact Hp | exact Hp2]. }
  subst out2. exists out1.
  destruct (getarchives_room args vp1 w1 (bar_room_processed _ _ Hroom1))
    as [a1 [R1 _]].
  destruct (getarchives_room args vp2 w2 (bar_room_processed _ _ Hroom2))
    as [a2 [R2 _]].
  fold g1 in R1. fold g2 in R2. rewrite R1, R2, E1, E2.
  repeat split. exact Hp1.
Qed.

(** X6: fetching again what a fetch returned changes nothing: a station that
    yields the records of a collection [getarchives] returned, in the order
    of that collection, makes [getarchives] return the same collection, the
    bar having room for them. *)
Theorem getarchives_refetch (args args' : Args) (vp vp' : VantagePro2)
        (w w' : World) (out : ListDict) :
  let g' := _get_archives_generator vp' (args_start args') (args_stop args') in
  fst (getarchives args vp w) = Ok out ->
  yielded g' = out -> raised g' = None ->
  bar_room (args_debug args') (List.length out) ->
  fst (getarchives args' vp' w') = Ok out.
Proof.
  intros g' E Hy Hr Hroom.
  destruct (getarchives_run args vp w) as [a [R _]].
  rewrite R in E. cbn [fst] in E. apply fetch_outcome_ok in E.
  set (g := _get_archives_generator vp (args_start args) (args_stop args)) in *.
  assert (Hok : raised g = None /\ Forall has_datetime (yielded g)).
  { unfold fetch_result in E.
    destruct (first_seen [] (yielded g)) as [acc|e] eqn:Ea; [|discriminate].
    simpl in E. split; [|now apply (first_seen_ok_has_datetime _ [] acc)].
    destruct (raised g); [discriminate | reflexivity]. }
  destruct Hok as [Hrg Hyg].
  destruct (fetch_result_spec g Hrg Hyg)
    as [acc [out0 [_ [E0 [_ [Hs [Hn [Hf _]]]]]]]].
  rewrite E in E0. injection E0 as <-.
  assert (Hd : Forall has_datetime out).
  { apply Forall_forall. intros r Hin. rewrite Forall_forall in Hyg.
    now apply Hyg, first_for_In, Hf. }
  rewrite <- Hy in Hroom.
  destruct (getarchives_room args' vp' w' (bar_room_processed _ _ Hroom))
    as [a' [R' _]].
  rewrite R'. cbn [fst]. fold g'. unfold fetch_result. rewrite Hy, Hr.
  rewrite (first_seen_keeps_all out Hd Hn) by reflexivity. simpl.
  destruct (sorted_by_datetime false out Hd) as [out' [Es [Hp Hs']]].
  rewrite Es. f_equal. symmetry. now apply sorted_unique.
Qed.

(* ================================================================== *)
(** ** More on [update_cmd] and [main] *)

Section MoreMerge.

Variable strptime : string -> string -> option datetime.
Variable static_schema : list string.
Variable from_url : string -> nat -> Result VantagePro2.

(** X7: a run of [update_cmd] sends at most one request to the station,
    never with an upper bound; when the store does not load, the run fails
    with the error of the load before the station is asked anything; and
    the [start] and [stop] the caller left in [args] play no part, the run
    is the same without them. *)
Theorem update_cmd_requests (args : Args) (vp : VantagePro2) (w : World) :
  let out := update_cmd strptime static_schema args vp w in
  exists asked,
    fetches (trace (snd out)) = fetches (trace w) ++ asked
    /\ List.length asked <= 1
    /\ (forall r, In r asked -> snd r = None)
    /\ (forall e,
          csv_text_to_dict strptime (args_delim args) (content w) = Err e ->
          asked = [] /\ fst out = Err e)
    /\ (forall start stop,
          update_cmd strptime static_schema
                     (set_start start (set_stop stop args)) vp w = out).
Proof.
  intros out. subst out.
  assert (Hign : forall start stop,
             update_cmd strptime static_schema
                        (set_start start (set_stop stop args)) vp w
             = update_cmd strptime static_schema args vp w).
  { intros start stop. destruct args. reflexivity. }
  destruct (update_cmd_run strptime static_schema args vp w)
    as [pos [added [E Hf]]].
  exists (planned_request strptime args (content w)).
  split; [rewrite E; cbn [snd trace]; now rewrite fetches_app, Hf|].
  unfold planned_request.
  split.
  { destruct (result_bind
                (csv_text_to_dict strptime (args_delim args) (content w))
                (resume_point strptime)); simpl; lia. }
  split.
  { destruct (result_bind
                (csv_text_to_dict strptime (args_delim args) (content w))
                (resume_point strptime)); intros r Hin;
      [destruct Hin as [<-|[]]; reflexivity | destruct Hin]. }
  split; [|exact Hign].
  intros e He. rewrite He. split; [reflexivity|].
  rewrite E. unfold update_plan. now rewrite He.
Qed.

(** X8: whatever the command, no exception leaves [main] outside debug
    mode; when the connection to the station fails the command is not run
    and the world is as it was, the logger switch of debug mode apart; and
    [main] returns only when the connection and the command both went
    well. *)
Theorem main_contains_errors (args : Args)
        (f : Args -> VantagePro2 -> M unit) (w : World) :
  let out := main from_url args (Some f) w in
  let w0 := if args_debug args then add_trace w [ActiveLogger] else w in
  (args_debug args = false -> forall e, fst out <> Raised e)
  /\ (forall e,
        from_url (args_url args) (args_timeout args) = Err e ->
        out = (if args_debug args then Raised e
               else SystemExit 2 (error_str e), w0))
  /\ (fst out = Returned ->
      exists vp,
        from_url (args_url args) (args_timeout args) = Ok vp
        /\ f args vp w0 = (Ok tt, snd out)).
Proof.
  intros out w0. subst out w0. unfold main.
  destruct (args_debug args).
  - rewrite (bind_run _ _ w _ _ (emit_run ActiveLogger w)), lift_bind_run.
    split; [discriminate|].
    destruct (from_url (args_url args) (args_timeout args)) as [vp|e0].
    + split; [discriminate|]. intros H. exists vp. split; [reflexivity|].
      destruct (f args vp (add_trace w [ActiveLogger])) as [[[]|e1] w1];
        simpl in H; [reflexivity | discriminate].
    + split; [intros e He; now injection He as <- | discriminate].
  - rewrite lift_bind_run.
    destruct (from_url (args_url args) (args_timeout args)) as [vp|e0].
    + split.
      * intros _ e. destruct (f args vp w) as [[[]|e1] w1]; discriminate.
      * split; [discriminate|]. intros H. exists vp. split; [reflexivity|].
        destruct (f args vp w) as [[[]|e1] w1];
          simpl in H; [reflexivity | discriminate].
    + split; [discriminate|].
      split; [intros e He; now injection He as <- | discriminate].
Qed.

End MoreMerge.

(* ================================================================== *)
(** ** [getarchives_cmd] *)

Section MoreArchives.

Variable strptime : string -> string -> option datetime.
Variable unicode_escape : string -> Result string.
Variable to_csv_text : string -> ListDict -> Result string.

Lemma fetches_fetch_args (a : ArchivesArgs) (start stop : option datetime)
      (vp : VantagePro2) (w : World) :
  let out := getarchives (fetch_args a start stop) vp w in
  fetches (trace (snd out)) = fetches (trace w) ++ [(start, stop)]
  /\ file_db (snd out) = file_db w.
Proof.
  intros out. subst out.
  destruct (getarchives_run (fetch_args a start stop) vp w)
    as [added [E [Hf _]]].
  rewrite E. cbn [snd]. unfold add_trace. cbn [trace file_db].
  split; [|reflexivity]. rewrite fetches_app. simpl. now rewrite Hf.
Qed.

Lemma output_write_run (output : Output) (text : string) (w : World)
      (written : string) :
  output_write output text (w, written)
  = (Ok tt, match output with
            | Stdout => (add_trace w [StdoutWrite text], written)
            | OutputFile => (w, (written ++ text)%string)
            end).
Proof. now destruct output. Qed.

(** X9: [getarchives_cmd] checks its arguments before it asks the station:
    the delimiter is decoded first, then the start and then the stop are
    parsed with the format [%Y-%m-%d %H:%M]; the first of the three that
    fails is the error of the command, and then no request is sent, the
    world is as it was and nothing is written.  When all three go well, one
    request is sent, with the parsed bounds, an absent bound staying
    absent. *)
Theorem getarchives_cmd_checks_first (args : ArchivesArgs) (vp : VantagePro2)
        (w : World) (written : string) :
  let out := getarchives_cmd strptime unicode_escape to_csv_text args vp
                             (w, written) in
  match unicode_escape (cmd_delim args) with
  | Err e => out = (Err e, (w, written))
  | Ok _ =>
      match parse_bound strptime (cmd_start args) with
      | Err e => out = (Err e, (w, written))
      | Ok start =>
          match parse_bound strptime (cmd_stop args) with
          | Err e => out = (Err e, (w, written))
          | Ok stop =>
              fetches (trace (fst (snd out)))
              = fetches (trace w) ++ [(start, stop)]
              /\ (cmd_start args = None -> start = None)
              /\ (cmd_stop args = None -> stop = None)
          end
      end
  end.
Proof.
  intros out. subst out. unfold getarchives_cmd, sm_bind, sm_lift.
  destruct (unicode_escape (cmd_delim args)) as [delim|e]; [|reflexivity].
  destruct (parse_bound strptime (cmd_start args)) as [start|e] eqn:Es;
    [|reflexivity].
  destruct (parse_bound strptime (cmd_stop args)) as [stop|e] eqn:Et;
    [|reflexivity].
  split; [|split].
  - unfold on_fst. cbn [fst snd].
    pose proof (fetches_fetch_args args start stop vp w) as [Hf _].
    destruct (getarchives (fetch_args args start stop) vp w) as [[items|e] w'];
      cbn [fst snd] in *; [|exact Hf].
    destruct (to_csv_text delim items); [|exact Hf].
    rewrite output_write_run.
    destruct (cmd_output args); cbn [fst snd]; [|exact Hf].
    unfold add_trace. cbn [trace]. rewrite fetches_app, Hf. simpl.
    now rewrite app_nil_r.
  - intros H. rewrite H in Es. simpl in Es. congruence.
  - intros H. rewrite H in Et. simpl in Et. congruence.
Qed.



End MoreArchives.

(* ================================================================== *)
(** ** The commands that talk to the station *)

Section MoreStation.

Variable strptime : string -> string -> option datetime.
Variable Station : Type.
Variable gettime : SM Station datetime.
Variable settime : datetime -> SM Station unit.
Variable timezone : SM Station string.
Variable getperiod : SM Station string.
Variable setperiod : string -> SM Station unit.
Variable firmware_date : SM Station string.
Variable firmware_version : SM Station string.
Variable diagnostics : SM Station string.
Variable str_datetime : datetime -> string.

(** X11: [settime_cmd] with a date that does not parse with the format
    [%Y-%m-%d %H:%M] never sets the clock: the station is asked its time,
    and that is all; the command raises the error of that call or else the
    [ValueError] of the date, and nothing is printed. *)
Theorem settime_cmd_bad_date (args : TimeArgs) (w : World) (s : Station) :
  strptime (args_datetime args) format_minutes = None ->
  settime_cmd strptime gettime settime timezone str_datetime args (w, s)
  = (match fst (gettime s) with
     | Ok _ => Err (strptime_error (args_datetime args) format_minutes)
     | Err e => Err e
     end,
     (w, snd (gettime s))).
Proof.
  intros H. unfold settime_cmd, sm_bind, on_snd, sm_lift. cbn [fst snd].
  destruct (gettime s) as [[t0|e] s1]; cbn [fst snd]; [|reflexivity].
  now rewrite H.
Qed.

(** X12: on a station whose clock keeps the time it is set to and whose
    time and time zone can be read without changing it, [settime_cmd] with a
    date that parses sets the clock to that date and prints two lines: the
    time read before the clock was set, and the date given, each with the
    time zone read after the clock was set. *)
Theorem settime_cmd_report (args : TimeArgs) (w : World) (s s1 : Station)
        (zone : Station -> string) (t0 t : datetime) :
  (forall x, timezone x = (Ok (zone x), x)) ->
  (forall x, snd (gettime x) = x) ->
  (forall u x x', settime u x = (Ok tt, x') -> fst (gettime x') = Ok u) ->
  gettime s = (Ok t0, s) ->
  strptime (args_datetime args) format_minutes = Some t ->
  settime t s = (Ok tt, s1) ->
  settime_cmd strptime gettime settime timezone str_datetime args (w, s)
  = (Ok tt,
     (add_trace w
        [Print ("Old value: " ++ str_datetime t0 ++ " - " ++ zone s1);
         Print ("New value: " ++ str_datetime t ++ " - " ++ zone s1)],
      s1)).
Proof.
  intros Hz Hg Hset H0 Hp Hs.
  unfold settime_cmd, say, sm_bind, on_snd, on_fst, sm_lift. cbn [fst snd].
  rewrite H0. cbn [fst snd]. rewrite Hp, Hs. cbn [fst snd].
  rewrite Hz. cbn [fst snd]. unfold print at 1. rewrite emit_run. cbn [fst snd].
  pose proof (Hset t s s1 Hs) as Hnew. pose proof (Hg s1) as Hsame.
  destruct (gettime s1) as [r s2]. cbn [fst snd] in *. subst r s2.
  rewrite Hz. cbn [fst snd]. unfold print. rewrite emit_run, add_trace_add.
  reflexivity.
Qed.

(** X13: [setperiod_cmd] prints either its two lines or nothing: when the
    station gives its period and accepts the new one, the lines are the old
    period and, as the new value, the argument as it was typed, which is
    not read back from the station; when either call raises, so does the
    command, and nothing is printed. *)
Theorem setperiod_cmd_report (args : PeriodArgs) (w : World) (s : Station) :
  let out := setperiod_cmd getperiod setperiod args (w, s) in
  match fst out with
  | Ok _ =>
      exists old s1 s2,
        getperiod s = (Ok old, s1)
        /\ setperiod (args_period args) s1 = (Ok tt, s2)
        /\ snd out
           = (add_trace w [Print ("Old value: " ++ old);
                           Print ("New value: " ++ args_period args)], s2)
  | Err e =>
      fst (snd out) = w
      /\ (fst (getperiod s) = Err e
          \/ exists old s1, getperiod s = (Ok old, s1)
                            /\ fst (setperiod (args_period args) s1) = Err e)
  end.
Proof.
  intros out. subst out.
  unfold setperiod_cmd, say, sm_bind, on_snd, on_fst. cbn [fst snd].
  destruct (getperiod s) as [[old|e] s1] eqn:Eg; cbn [fst snd].
  - destruct (setperiod (args_period args) s1) as [[[]|e] s2] eqn:Es;
      cbn [fst snd].
    + unfold print. rewrite emit_run. cbn [fst snd].
      rewrite ?emit_run, ?add_trace_add. cbn [fst snd].
      rewrite ?add_trace_add.
      exists old, s1, s2. repeat split. exact Es.
    + split; [reflexivity|]. right. exists old, s1. now rewrite Es.
  - split; [reflexivity | now left].
Qed.

(** X14: [getinfo_cmd] prints its three lines in one piece or not at all:
    it reads the firmware date, the firmware version and the diagnostics, in
    that order, and prints only once all three are read; when a read raises,
    so does the command, the later reads are not made and nothing is
    printed. *)
Theorem getinfo_cmd_all_or_nothing (w : World) (s : Station) :
  let out := getinfo_cmd firmware_date firmware_version diagnostics (w, s) in
  match fst out with
  | Ok _ =>
      exists d v g s1 s2 s3,
        firmware_date s = (Ok d, s1)
        /\ firmware_version s1 = (Ok v, s2)
        /\ diagnostics s2 = (Ok g, s3)
        /\ snd out
           = (add_trace w
                [Print ("Firmware date: " ++ d ++ String LF
                        ("Firmware version: " ++ v ++ String LF
                         ("Diagnostics: " ++ g ++ String LF "")))], s3)
  | Err e =>
      fst (snd out) = w
      /\ (snd out = (w, snd (firmware_date s))
          \/ (exists d s1, firmware_date s = (Ok d, s1)
                           /\ (snd out = (w, snd (firmware_version s1))
                               \/ exists v s2,
                                    firmware_version s1 = (Ok v, s2)
                                    /\ snd out = (w, snd (diagnostics s2)))))
  end.
Proof.
  intros out. subst out.
  unfold getinfo_cmd, say, sm_bind, on_snd, on_fst. cbn [fst snd].
  destruct (firmware_date s) as [[d|e] s1] eqn:E1; cbn [fst snd];
    [|split; [reflexivity | now left]].
  destruct (firmware_version s1) as [[v|e] s2] eqn:E2; cbn [fst snd].
  2:{ split; [reflexivity|]. right. exists d, s1. split; [reflexivity|].
      left. now rewrite E2. }
  destruct (diagnostics s2) as [[g|e] s3] eqn:E3; cbn [fst snd].
  2:{ split; [reflexivity|]. right. exists d, s1. split; [reflexivity|].
      right. exists v, s2. split; [exact E2 | now rewrite E3]. }
  unfold print. rewrite emit_run. cbn [fst snd].
  exists d, v, g, s1, s2, s3. repeat split; assumption.
Qed.

End MoreStation.

(* ================================================================== *)
(** ** A station that sends only what is new *)





Section NewOnly.

Variable strptime : string -> string -> option datetime.
Variable static_schema : list string.


End NewOnly.

(* ================================================================== *)
(** ** The further theorems at work *)

Lemma three_have_datetime :
  Forall has_datetime [rec_0005; rec_0000; rec_0005_again].
Proof. repeat constructor; discriminate. Qed.

Lemma three_fit_the_bar :
  List.length [rec_0005; rec_0000; rec_0005_again] <= 2601.
Proof. simpl. lia. Qed.

Lemma getarchives_bar_protocol_witness :
  let args := default_args false in
  let vp := playback [rec_0005; rec_0000; rec_0005_again] in
  let w := new_world None in
  let g := _get_archives_generator vp (args_start args) (args_stop args) in
  args_debug args = false /\ raised g = None /\ Forall has_datetime (yielded g)
  /\ List.length (yielded g) <= 2601
  /\ exists out,
      fetch_result g = Ok out
      /\ getarchives args vp w
         = (Ok out,
            add_trace w ([Fetch (args_start args) (args_stop args); PbarStart 2600]
                         ++ bar_updates 0 (List.length (yielded g))
                         ++ [PbarFinish; Print (summary_line (List.length out))])).
Proof.
  intros args vp w g.
  split; [reflexivity|]. split; [reflexivity|].
  split; [exact three_have_datetime|]. split; [exact three_fit_the_bar|].
  exact (getarchives_bar_protocol args vp w eq_refl eq_refl three_have_datetime
           three_fit_the_bar).
Defined.

(** A download of 2602 records, five minutes apart. *)
Lemma getarchives_bar_overflow_witness :
  let args := default_args false in
  let vp := playback (archive 2602) in
  let w := new_world None in
  let g := _get_archives_generator vp (args_start args) (args_stop args) in
  args_debug args = false /\ Forall has_datetime (yielded g)
  /\ List.length (yielded g) = 2602
  /\ getarchives args vp w
     = (Err (ValueError "Value out of range"),
        add_trace w ([Fetch (args_start args) (args_stop args); PbarStart 2600]
                     ++ bar_updates 0 2601)).
Proof.
  intros args vp w g.
  assert (Hn : List.length (yielded g) = 2602) by exact (archive_length 2602).
  split; [reflexivity|]. split; [exact (archive_has_datetime 2602)|].
  split; [exact Hn|].
  refine (getarchives_bar_overflow args vp w eq_refl
            (archive_has_datetime 2602) _).
  fold g. rewrite Hn. lia.
Defined.

Lemma getarchives_summary_counts_witness :
  let args := default_args false in
  let vp := playback [rec_0005; rec_0000; rec_0005_again] in
  let w := new_world None in
  let g := _get_archives_generator vp (args_start args) (args_stop args) in
  args_debug args = false /\ raised g = None /\ Forall has_datetime (yielded g)
  /\ List.length (yielded g) <= 2601
  /\ exists out w',
      getarchives args vp w = (Ok out, w')
      /\ printed (trace w') = printed (trace w) ++ [summary_line (List.length out)]
      /\ List.length out
         = List.length (nodup string_dec (map Datetime (yielded g)))
      /\ List.length out <= List.length (yielded g).
Proof.
  intros args vp w g.
  split; [reflexivity|]. split; [reflexivity|].
  split; [exact three_have_datetime|]. split; [exact three_fit_the_bar|].
  exact (getarchives_summary_counts args vp w eq_refl eq_refl three_have_datetime
           three_fit_the_bar).
Defined.

Lemma getarchives_missing_datetime_witness :
  let args := default_args false in
  let vp := playback [rec_0005; rec_no_datetime; rec_0000] in
  let w := new_world None in
  Forall has_datetime [rec_0005]
  /\ lookup "Datetime" rec_no_datetime = None
  /\ List.length [rec_0005] <= 2600
  /\ getarchives args vp w
     = (Err (KeyError "Datetime"),
        add_trace w ([Fetch (args_start args) (args_stop args); PbarStart 2600]
                     ++ bar_updates 0 2)).
Proof.
  intros args vp w.
  assert (H : Forall has_datetime [rec_0005])
    by (repeat constructor; discriminate).
  assert (Hn : List.length [rec_0005] <= 2600) by (simpl; lia).
  split; [exact H|]. split; [reflexivity|]. split; [exact Hn|].
  exact (getarchives_missing_datetime args vp w [rec_0005] [rec_0000]
           rec_no_datetime eq_refl eq_refl H eq_refl Hn).
Defined.

Lemma getarchives_generator_raises_witness :
  let args := default_args false in
  let vp := broken_station [rec_0005; rec_0000] link_down in
  let w := new_world None in
  Forall has_datetime [rec_0005; rec_0000]
  /\ List.length [rec_0005; rec_0000] <= 2601
  /\ getarchives args vp w
     = (Err link_down,
        add_trace w ([Fetch (args_start args) (args_stop args); PbarStart 2600]
                     ++ bar_updates 0 2)).
Proof.
  intros args vp w.
  assert (H : Forall has_datetime [rec_0005; rec_0000])
    by (repeat constructor; discriminate).
  assert (Hn : List.length [rec_0005; rec_0000] <= 2601) by (simpl; lia).
  split; [exact H|]. split; [exact Hn|].
  exact (getarchives_generator_raises args vp w link_down eq_refl eq_refl H Hn).
Defined.

Lemma getarchives_order_independent_witness :
  let args := default_args false in
  let vp1 := playback [rec_0005; rec_0000] in
  let vp2 := playback [rec_0000; rec_0005] in
  NoDup (map Datetime [rec_0005; rec_0000])
  /\ Permutation [rec_0005; rec_0000] [rec_0000; rec_0005]
  /\ bar_room (args_debug args) (List.length [rec_0005; rec_0000])
  /\ exists out,
      fst (getarchives args vp1 (new_world None)) = Ok out
      /\ fst (getarchives args vp2 (new_world (Some store_one))) = Ok out
      /\ Permutation [rec_0005; rec_0000] out.
Proof.
  intros args vp1 vp2.
  assert (Hn : NoDup (map Datetime [rec_0005; rec_0000])).
  { repeat constructor; simpl; intuition discriminate. }
  assert (Hy : Forall has_datetime [rec_0005; rec_0000])
    by (repeat constructor; discriminate).
  assert (Hroom : bar_room (args_debug args) (List.length [rec_0005; rec_0000]))
    by (right; simpl; lia).
  split; [exact Hn|]. split; [apply perm_swap|]. split; [exact Hroom|].
  exact (getarchives_order_independent args vp1 vp2 (new_world None)
           (new_world (Some store_one)) eq_refl eq_refl Hy Hn
           (perm_swap rec_0000 rec_0005 []) Hroom).
Defined.

Lemma getarchives_refetch_witness :
  let args := default_args false in
  let vp := playback [rec_0005; rec_0000; rec_0005_again] in
  let out := [rec_0000; rec_0005] in
  fst (getarchives args vp (new_world None)) = Ok out
  /\ bar_room (args_debug (default_args false)) (List.length out)
  /\ fst (getarchives (default_args false) (playback out) (new_world None))
     = Ok out.
Proof.
  intros args vp out.
  assert (Hroom : bar_room (args_debug (default_args false)) (List.length out))
    by (right; simpl; lia).
  split; [reflexivity|]. split; [exact Hroom|].
  exact (getarchives_refetch args (default_args false) vp (playback out)
           (new_world None) (new_world None) out eq_refl eq_refl eq_refl Hroom).
Defined.

(** Without [--output], the summary line and the text of the collection
    share [sys.stdout], the line first. *)
Example getarchives_cmd_on_stdout :
  let args := mkArchivesArgs false "tcp:station:1111" 10 None None "," Stdout in
  let out := getarchives_cmd strptime_both (fun text => Ok text) one_char args
               (playback [rec_0005; rec_0000]) (new_world None, EmptyString) in
  fst out = Ok tt
  /\ snd (snd out) = EmptyString
  /\ trace (fst (snd out))
     = [Fetch None None; PbarStart 2600; PbarUpdate 0; PbarUpdate 1;
        PbarFinish; Print "2 new records were found";
        StdoutWrite (store_text comma schema [rec_0000; rec_0005])].
Proof. repeat split. Qed.

Lemma settime_cmd_bad_date_witness :
  let args := mkTimeArgs "tomorrow" in
  strptime_both (args_datetime args) format_minutes = None
  /\ settime_cmd strptime_both clock_gettime clock_settime clock_timezone
                 show_datetime args (new_world None, midnight)
     = (Err (strptime_error "tomorrow" format_minutes),
        (new_world None, midnight)).
Proof.
  intros args. split; [reflexivity|].
  exact (settime_cmd_bad_date strptime_both datetime clock_gettime clock_settime
           clock_timezone show_datetime args (new_world None) midnight eq_refl).
Defined.

Lemma settime_cmd_report_witness :
  let args := mkTimeArgs "2024-01-01 00:05" in
  let t := mkDatetime 2024 1 1 0 5 0 in
  strptime_both (args_datetime args) format_minutes = Some t
  /\ settime_cmd strptime_both clock_gettime clock_settime clock_timezone
                 show_datetime args (new_world None, midnight)
     = (Ok tt,
        (add_trace (new_world None)
           [Print ("Old value: " ++ show_datetime midnight ++ " - " ++ "UTC");
            Print ("New value: " ++ show_datetime t ++ " - " ++ "UTC")],
         t)).
Proof.
  intros args t. split; [reflexivity|].
  refine (settime_cmd_report strptime_both datetime clock_gettime clock_settime
            clock_timezone show_datetime args (new_world None) midnight t
            (fun _ => "UTC") midnight t _ _ _ eq_refl eq_refl eq_refl).
  - reflexivity.
  - reflexivity.
  - intros u x x' H. injection H as <-. reflexivity.
Defined.

